(** * pdf-excel: the extraction-and-structuring core of [pdf_to_excel.py]

    A shallow embedding of [PDFProcessor]: the quality classifier
    ([_is_low_quality_extraction]), the strategy selection of
    [process_pdf_to_excel] and [process_multiple_pdfs_to_excel], the
    structuring engine ([format_text_to_structure]) and the sample table
    ([_generate_sample_attributes]), followed by the properties of the
    specification that concern them.

    Python strings are sequences of Unicode code points, so a [str] is a list
    of code points and [len] counts code points.  The parts of the Unicode
    character database that Python consults ([str.isalpha], the [\d] class of
    [re], [str.upper], [str.lower]) are fixed on ASCII and a parameter
    ([unicode_db]) beyond it. *)

From Stdlib Require Import String Ascii.
From Stdlib Require Import List NArith ZArith QArith Bool Lia Sorted FinFun.
Import ListNotations.
Close Scope Q_scope.

Set Implicit Arguments.

(* ================================================================= *)
(** ** Strings *)

Module Str.

Definition char := N.
Definition str := list char.

Definition len (s : str) : Z := Z.of_nat (length s).

(** Decoding of the UTF-8 bytes of a literal of this file into code points. *)
Fixpoint utf8 (l : list N) : str :=
  match l with
  | [] => []
  | b0 :: t =>
      if (b0 <? 128)%N then b0 :: utf8 t
      else if (b0 <? 224)%N then
        match t with
        | b1 :: t' => ((b0 - 192) * 64 + (b1 - 128))%N :: utf8 t'
        | _ => []
        end
      else if (b0 <? 240)%N then
        match t with
        | b1 :: b2 :: t' =>
            ((b0 - 224) * 4096 + (b1 - 128) * 64 + (b2 - 128))%N :: utf8 t'
        | _ => []
        end
      else
        match t with
        | b1 :: b2 :: b3 :: t' =>
            ((b0 - 240) * 262144 + (b1 - 128) * 4096 + (b2 - 128) * 64
             + (b3 - 128))%N :: utf8 t'
        | _ => []
        end
  end.

Definition u (s : string) : str :=
  utf8 (map N_of_ascii (list_ascii_of_string s)).

Definition eqb (a b : str) : bool :=
  if list_eq_dec N.eq_dec a b then true else false.

(** [str.isspace] of one character: the white space of CPython's
    [_PyUnicode_IsWhitespace]. *)
Definition isspace (c : char) : bool :=
  ((9 <=? c) && (c <=? 13) || (28 <=? c) && (c <=? 32)
   || (c =? 133) || (c =? 160) || (c =? 5760)
   || (8192 <=? c) && (c <=? 8202)
   || (c =? 8232) || (c =? 8233) || (c =? 8239) || (c =? 8287)
   || (c =? 12288))%N.

Fixpoint lstrip (s : str) : str :=
  match s with
  | c :: s' => if isspace c then lstrip s' else s
  | [] => []
  end.

Definition rstrip (s : str) : str := rev (lstrip (rev s)).

(** [s.strip()] *)
Definition strip (s : str) : str := rstrip (lstrip s).

(** [not s.strip()] *)
Definition blank (s : str) : bool :=
  match strip s with [] => true | _ => false end.

(** [s.split(sep)] for a one-character separator: never an empty list. *)
Fixpoint split_on (sep : char) (s : str) : list str :=
  match s with
  | [] => [[]]
  | c :: s' =>
      if (c =? sep)%N then [] :: split_on sep s'
      else match split_on sep s' with
           | w :: ws => (c :: w) :: ws
           | [] => [[c]]
           end
  end.

(** [s.split()]: the maximal runs of characters that are not white space. *)
Fixpoint split_ws_aux (cur : str) (s : str) : list str :=
  match s with
  | [] => match cur with [] => [] | _ => [rev cur] end
  | c :: s' =>
      if isspace c
      then match cur with
           | [] => split_ws_aux [] s'
           | _ => rev cur :: split_ws_aux [] s'
           end
      else split_ws_aux (c :: cur) s'
  end.

Definition split_ws (s : str) : list str := split_ws_aux [] s.

(** [s.startswith(p)] *)
Fixpoint startswith (s p : str) : bool :=
  match p, s with
  | [], _ => true
  | a :: p', b :: s' => (a =? b)%N && startswith s' p'
  | _ :: _, [] => false
  end.

(** [s.endswith(p)] *)
Definition endswith (s p : str) : bool := startswith (rev s) (rev p).

(** [needle in hay] *)
Fixpoint contains (hay needle : str) : bool :=
  startswith hay needle
  || match hay with
     | [] => false
     | _ :: hay' => contains hay' needle
     end.

(** [s.replace(a, b)] for one-character [a] and [b]. *)
Definition replace_char (a b : char) (s : str) : str :=
  map (fun c => if (c =? a)%N then b else c) s.

(** [sep.join(parts)] *)
Fixpoint join (sep : str) (parts : list str) : str :=
  match parts with
  | [] => []
  | [p] => p
  | p :: ps => p ++ sep ++ join sep ps
  end.

(** [s.count(c)] for a one-character [c], and the generator sums
    [sum(1 for c in s if p(c))]. *)
Definition count (p : char -> bool) (s : str) : Z :=
  Z.of_nat (length (filter p s)).

(** Decimal digits of a non-negative integer, as [str(n)] writes them. *)
Fixpoint digits_of_uint (d : Decimal.uint) : str :=
  match d with
  | Decimal.Nil => []
  | Decimal.D0 d' => 48%N :: digits_of_uint d'
  | Decimal.D1 d' => 49%N :: digits_of_uint d'
  | Decimal.D2 d' => 50%N :: digits_of_uint d'
  | Decimal.D3 d' => 51%N :: digits_of_uint d'
  | Decimal.D4 d' => 52%N :: digits_of_uint d'
  | Decimal.D5 d' => 53%N :: digits_of_uint d'
  | Decimal.D6 d' => 54%N :: digits_of_uint d'
  | Decimal.D7 d' => 55%N :: digits_of_uint d'
  | Decimal.D8 d' => 56%N :: digits_of_uint d'
  | Decimal.D9 d' => 57%N :: digits_of_uint d'
  end.

(** [f"{n:02d}"]: sign, then the digits padded with zeros to width 2
    (the sign counts for the width). *)
Definition format_02d (n : Z) : str :=
  let ds := digits_of_uint (N.to_uint (Z.abs_N n)) in
  if (n <? 0)%Z then 45%N :: ds
  else match ds with
       | [d] => [48%N; d]
       | _ => ds
       end.

(** [str(n)] and [f"{n}"] for an integer. *)
Definition str_of_int (n : Z) : str :=
  let ds := digits_of_uint (N.to_uint (Z.abs_N n)) in
  if (n <? 0)%Z then 45%N :: ds else ds.

End Str.
Import Str.

(* ================================================================= *)
(** ** The Unicode character database *)

(** What Python reads from the character database outside ASCII.  Inside
    ASCII the answers are fixed below. *)
Record unicode_db := {
  nonascii_decimal : char -> bool;  (* category Nd, code points >= 128 *)
  nonascii_alpha : char -> bool;    (* categories L*, code points >= 128 *)
  str_upper : str -> str;           (* s.upper() *)
  str_lower : str -> str;           (* s.lower() *)
  (* no letter is white space *)
  alpha_not_space :
    forall c, nonascii_alpha c = true -> isspace c = false
}.

Section Unicode.
Variable db : unicode_db.

(** the class [\d] of [re] on a [str] pattern *)
Definition is_decimal (c : char) : bool :=
  if (c <? 128)%N then ((48 <=? c) && (c <=? 57))%N
  else nonascii_decimal db c.

(** [c.isalpha()] *)
Definition isalpha (c : char) : bool :=
  if (c <? 128)%N
  then ((65 <=? c) && (c <=? 90) || (97 <=? c) && (c <=? 122))%N
  else nonascii_alpha db c.

End Unicode.

(** A database with nothing outside ASCII, for running the model on ASCII
    inputs. *)
Definition ascii_upper (c : char) : char :=
  if ((97 <=? c) && (c <=? 122))%N then (c - 32)%N else c.
Definition ascii_lower (c : char) : char :=
  if ((65 <=? c) && (c <=? 90))%N then (c + 32)%N else c.

Definition ascii_db : unicode_db :=
  {| nonascii_decimal := fun _ => false;
     nonascii_alpha := fun _ => false;
     str_upper := map ascii_upper;
     str_lower := map ascii_lower;
     alpha_not_space := fun c (H : false = true) =>
       False_ind _ (Bool.diff_false_true H) |}.

(* ================================================================= *)
(** ** Regular expressions: the fragment of [re] the program uses *)

Module Re.

(** Exactly what the patterns of the program are built from.  The only
    unbounded repetitions ([+], [{2,}]) are over a character class. *)
Inductive regex :=
| Chr (p : char -> bool)               (* one character of a class *)
| Seq (r1 r2 : regex)                  (* r1 r2 *)
| Opt (r : regex)                      (* r?       (greedy) *)
| Times (n : nat) (r : regex)          (* r{n} *)
| Many (lo : nat) (p : char -> bool).  (* [p]{lo,} (greedy); [+] is lo = 1 *)

(** A matcher takes the subject and a continuation for the rest; the first
    success in backtracking order wins. *)
Definition matcher := str -> (str -> option str) -> option str.

Fixpoint times (m : matcher) (n : nat) : matcher :=
  fun s k =>
  match n with
  | O => k s
  | S n' => m s (fun s' => times m n' s' k)
  end.

(** Greedy: take one more character of the class while there is one, and
    give characters back one at a time while the continuation fails, never
    going below [lo]. *)
Fixpoint many (p : char -> bool) (lo : nat) (s : str)
    (k : str -> option str) : option str :=
  let stop := match lo with O => k s | S _ => None end in
  match s with
  | c :: s' =>
      if p c then
        match many p (pred lo) s' k with
        | Some rest => Some rest
        | None => stop
        end
      else stop
  | [] => stop
  end.

Fixpoint rmatch (r : regex) : matcher :=
  fun s k =>
  match r with
  | Chr p =>
      match s with
      | c :: s' => if p c then k s' else None
      | [] => None
      end
  | Seq r1 r2 => rmatch r1 s (fun s' => rmatch r2 s' k)
  | Opt r1 =>
      match rmatch r1 s k with
      | Some rest => Some rest
      | None => k s
      end
  | Times n r1 => times (rmatch r1) n s k
  | Many lo p => many p lo s k
  end.

(** The match of [r] anchored at the head of [s]: [match.group()]. *)
Definition match_here (r : regex) (s : str) : option str :=
  match rmatch r s Some with
  | Some rest => Some (firstn (length s - length rest) s)
  | None => None
  end.

(** [re.search(r, s)]: the match at the leftmost position that has one. *)
Fixpoint search (r : regex) (s : str) : option str :=
  match match_here r s with
  | Some m => Some m
  | None =>
      match s with
      | [] => None
      | _ :: s' => search r s'
      end
  end.

Definition lit (c : char) : regex := Chr (N.eqb c).
Definition A_Z (c : char) : bool := ((65 <=? c) && (c <=? 90))%N.
Definition plus (p : char -> bool) : regex := Many 1 p.

End Re.
Import Re.

(* ================================================================= *)
(** ** Rows of the attribute table *)

(** One row of [structured_data]: the eleven cells in the order of the
    sheet's headers.  Each field is named after its header; the comment gives
    the variable the program stores there. *)
Record row := {
  col_Field : str;       (* functional_location *)
  col_TPLNR : str;       (* "FG-FGAS" *)
  col_CLASS : str;       (* "003" *)
  col_KLART : Z;         (* position_counter *)
  col_POSNUMMER : str;   (* attr_name *)
  col_ATNAM : str;       (* attr_value *)
  col_ATWRT : str;       (* description *)
  col_UoM : str;         (* uom *)
  col_Remarks : str;     (* "" *)
  col_Additional : str;  (* "" *)
  col_REF : str          (* full_doc_ref / doc_ref *)
}.

(** An entry of an attribute table:
    [(attr_name, attr_value, description, uom)]. *)
Definition attribute := (str * str * str * str)%type.

Local Open Scope N_scope.

(* ================================================================= *)
(** ** [format_text_to_structure] *)

Section Structuring.
Variable db : unicode_db.

Definition digit : char -> bool := is_decimal db.
Definition dash : regex := lit 45.
Definition dash_or_dot : regex := Chr (fun c => (c =? 45) || (c =? 46))%N.

(** [r'P?(\d+[-.]){3}\d+'] *)
Definition doc_ref_pattern : regex :=
  Seq (Opt (lit 80))
    (Seq (Times 3 (Seq (plus digit) dash_or_dot)) (plus digit)).

(** [[r'\d{2}-\d{2}-[A-Z]{4}-\d{4}', r'[A-Z]{2,}-\d+', r'\d+-\d+-[A-Z]+']] *)
Definition location_patterns : list regex :=
  [ Seq (Times 2 (Chr digit)) (Seq dash (Seq (Times 2 (Chr digit)) (Seq dash
      (Seq (Times 4 (Chr A_Z)) (Seq dash (Times 4 (Chr digit)))))));
    Seq (Many 2 A_Z) (Seq dash (plus digit));
    Seq (plus digit) (Seq dash (Seq (plus digit) (Seq dash (plus A_Z)))) ].

(** [[line.strip() for line in text.split('\n') if line.strip()]] *)
Definition text_lines (text : str) : list str :=
  map strip (filter (fun line => negb (blank line)) (split_on 10 text)).

(** The reference a file name gives (the block under [if pdf_name:], also
    the head of [_generate_sample_attributes]). *)
Definition doc_ref_of_name (pdf_name : str) : str :=
  match search doc_ref_pattern pdf_name with
  | Some m =>
      let full_doc_ref := if startswith m (u "P") then m else u "P" ++ m in
      if endswith full_doc_ref (u "-1") then full_doc_ref
      else full_doc_ref ++ u "-1"
  | None => u "P" ++ replace_char 45 46 pdf_name ++ u "-1"
  end.

(** [for line in lines[:20]: ... break]: the first line with a match
    replaces the reference. *)
Fixpoint doc_ref_in_lines (lines : list str) (full_doc_ref : str) : str :=
  match lines with
  | [] => full_doc_ref
  | line :: rest =>
      match search doc_ref_pattern line with
      | Some found_ref =>
          if startswith found_ref (u "P") then found_ref
          else u "P" ++ found_ref
      | None => doc_ref_in_lines rest full_doc_ref
      end
  end.

Definition document_reference (pdf_name : option str) (lines : list str)
  : str :=
  let full_doc_ref :=
    match pdf_name with
    | Some (c :: n) => doc_ref_of_name (c :: n)
    | _ => u "P11569-11-99-40-2619-1"
    end in
  doc_ref_in_lines (firstn 20 lines) full_doc_ref.

(** The inner loop over [location_patterns] for one line: the patterns in
    order, stopping ([break]) at the first whose match is longer than 8. *)
Fixpoint line_location (patterns : list regex) (line : str) : option str :=
  match patterns with
  | [] => None
  | pattern :: rest =>
      match search pattern line with
      | Some m =>
          if (8 <? len m)%Z then Some m else line_location rest line
      | None => line_location rest line
      end
  end.

(** The outer loop [for line in lines]: the [break] above leaves the inner
    loop only, so every line is visited and may assign. *)
Fixpoint scan_locations (lines : list str) (functional_location : str)
  : str :=
  match lines with
  | [] => functional_location
  | line :: rest =>
      scan_locations rest
        match line_location location_patterns line with
        | Some m => m
        | None => functional_location
        end
  end.

Definition find_functional_location (lines : list str) : str :=
  scan_locations lines (u "11-18-XTGD-5403").

Definition equipment_attributes : list attribute :=
  [ (u "NACC01", u "±10", u "Accuracy", u "%");
    (u "HSE-HAZ_AREA", u "Hazardous Area", u "Area Classification", u "");
    (u "CALR01", u "0–50", u "Calibrated Range", u "ppm");
    (u "DETCOMM", u "4–20 mA (HART)", u "Detector Communication", u "");
    (u "ENVIRONT", u "", u "Environment", u "");
    (u "ACFS01", u "Warning, Alarm", u "Fail Safe State", u "");
    (u "POWREQ", u "24 VDC", u "Power Requirement", u "V");
    (u "TEMP01", u "-40 to +75", u "Operating Temperature", u "°C");
    (u "CERTIF", u "ATEX, IECEx", u "Certification", u "");
    (u "MFGR", u "TYCO", u "Manufacturer", u "");
    (u "MODEL", u "H2S Gas Detector", u "Model/Type", u "");
    (u "CONN01", u "M20 x 1.5", u "Connection", u "");
    (u "HOUSING", u "Explosion Proof", u "Housing Type", u "");
    (u "DISPLAY", u "LCD", u "Display Type", u "");
    (u "ALARM", u "Visual & Audible", u "Alarm Type", u "") ].

Definition mk_row (functional_location : str) (position_counter : Z)
    (attr_name attr_value description uom full_doc_ref : str) : row :=
  {| col_Field := functional_location;
     col_TPLNR := u "FG-FGAS";
     col_CLASS := u "003";
     col_KLART := position_counter;
     col_POSNUMMER := attr_name;
     col_ATNAM := attr_value;
     col_ATWRT := description;
     col_UoM := uom;
     col_Remarks := u "";
     col_Additional := u "";
     col_REF := full_doc_ref |}.

(** The state both loops thread: [(structured_data, position_counter)]. *)
Definition emit_state := (list row * Z)%type.

(** [not attr_value and position_counter % 3 == 0] *)
Definition skips (a : attribute) (position_counter : Z) : bool :=
  let '(_, attr_value, _, _) := a in
  match attr_value with
  | [] => (position_counter mod 3 =? 0)%Z
  | _ => false
  end.

(** The body of [for attr_name, attr_value, description, uom in
    equipment_attributes]. *)
Definition emit_attribute (functional_location full_doc_ref : str)
    (st : emit_state) (a : attribute) : emit_state :=
  let '(structured_data, position_counter) := st in
  let '(attr_name, attr_value, description, uom) := a in
  if skips a position_counter then st
  else (structured_data ++
          [mk_row functional_location position_counter attr_name attr_value
             description uom full_doc_ref],
        (position_counter + 1)%Z).

Definition emit_template (functional_location full_doc_ref : str)
    (attrs : list attribute) (st : emit_state) : emit_state :=
  fold_left (emit_attribute functional_location full_doc_ref) attrs st.

Definition skip_patterns : list str :=
  [ u "Sheet"; u "PETROLEUM"; u "CONTRACT"; u "TRANS"; u "Previous";
    u "List of Attachments"; u "Project Manager"; u "file://";
    u "Terms:"; u "F.O.B."; u "Prices subject"; u "CONFIDENTIAL" ].

Definition keywords : list str :=
  [ u "PPM"; u "MA"; u "VDC"; u "TEMP"; u "PRESSURE"; u "RANGE"; u "ALARM";
    u "ACCURACY"; u "DETECTOR"; u "GAS"; u "H2S"; u "ATEX"; u "IECEX" ].

Definition units : list str :=
  [ u "ppm"; u "mA"; u "VDC"; u "°C"; u "%"; u "bar"; u "psi" ].

(** [for i, part in enumerate(parts): if re.search(r'\d+', part): ... break]:
    the index and the token of the first token with a digit. *)
Fixpoint first_numeric (i : nat) (parts : list str) : option (nat * str) :=
  match parts with
  | [] => None
  | part :: rest =>
      match search (plus digit) part with
      | Some _ => Some (i, part)
      | None => first_numeric (S i) rest
      end
  end.

(** [" ".join(parts[max(0, i-2):i+3])[:50]] *)
Definition describe (parts : list str) (i : nat) : str :=
  firstn 50 (join (u " ") (firstn (i + 3 - (i - 2)) (skipn (i - 2) parts))).

(** The first unit whose lower case occurs in the lower-cased line. *)
Definition find_uom (line : str) : str :=
  match find (fun unit => contains (str_lower db line) (str_lower db unit))
          units with
  | Some unit => unit
  | None => u ""
  end.

(** The body of [for line_num, line in enumerate(lines)].  No operation of
    the body raises on a [str], so its [except] clause is never entered. *)
Definition scan_line (functional_location full_doc_ref : str)
    (st : emit_state) (line : str) : emit_state :=
  let '(structured_data, position_counter) := st in
  if existsb (fun pattern => contains line pattern) skip_patterns then st
  else if existsb (fun keyword => contains (str_upper db line) keyword)
            keywords
  then
    let parts := split_ws line in
    match first_numeric 0 parts with
    | Some (i, part) =>
        let attr_name := u "SPEC" ++ format_02d position_counter in
        let attr_value := part in
        let description := describe parts i in
        let uom := find_uom line in
        (structured_data ++
           [mk_row functional_location position_counter attr_name attr_value
              (strip description) uom full_doc_ref],
         (position_counter + 1)%Z)
    | None => st
    end
  else st.

Definition scan_lines (functional_location full_doc_ref : str)
    (lines : list str) (st : emit_state) : emit_state :=
  fold_left (scan_line functional_location full_doc_ref) lines st.

(** [format_text_to_structure(text, pdf_name)]; [None] is the default
    [pdf_name = None]. *)
Definition format_text_to_structure (text : str) (pdf_name : option str)
  : list row :=
  if blank text then []
  else
    let lines := text_lines text in
    let full_doc_ref := document_reference pdf_name lines in
    let functional_location := find_functional_location lines in
    let st :=
      emit_template functional_location full_doc_ref equipment_attributes
        ([], 1%Z) in
    fst (scan_lines functional_location full_doc_ref lines st).

End Structuring.

(* ================================================================= *)
(** ** [format_text_to_structure] and the state outside its arguments *)

Inductive log_level := INFO | WARNING | ERROR.

(** What a call can reach besides its arguments: the instance it is called
    on, the module's [logger], and the interpreter's generator and clock.
    [logging.basicConfig] stamps every record with the time of the call. *)
Record outside := {
  supported_formats : list str;            (* self.supported_formats *)
  log_records : list (Z * log_level * str); (* what [logger] has written *)
  random_state : N;                        (* behind [random] and [hash] *)
  clock : Z                                (* time.time() *)
}.

(** Statements that return an [A] and may change the state outside. *)
Definition run (A : Type) : Type := outside -> A * outside.

(** [logger.info(msg)], [logger.warning(msg)], [logger.error(msg)] *)
Definition logger_log (level : log_level) (msg : str) : run unit :=
  fun o =>
    (tt,
     {| supported_formats := supported_formats o;
        log_records := log_records o ++ [(clock o, level, msg)];
        random_state := random_state o;
        clock := clock o |}).

Section StructuringRun.
Variable db : unicode_db.

(** [format_text_to_structure(text, pdf_name)] with what it does outside
    its arguments: the two logging calls.  Nothing in the [try] body of the
    line loop raises, so the handler's [logger.error] is not reached. *)
Definition format_text_to_structure_run (text : str) (pdf_name : option str)
  : run (list row) :=
  fun o =>
    if blank text then
      let '(_, o) := logger_log WARNING (u "No text to process") o in
      ([], o)
    else
      let lines := text_lines text in
      let full_doc_ref := document_reference db pdf_name lines in
      let functional_location := find_functional_location db lines in
      let st :=
        emit_template functional_location full_doc_ref equipment_attributes
          ([], 1%Z) in
      let structured_data :=
        fst (scan_lines db functional_location full_doc_ref lines st) in
      let '(_, o) :=
        logger_log INFO
          (u "Structured "
           ++ str_of_int (Z.of_nat (length structured_data))
           ++ u " attribute rows") o in
      (structured_data, o).

End StructuringRun.

(* ================================================================= *)
(** ** [_generate_sample_attributes] *)

Section Sample.
Variable db : unicode_db.

Definition sample_attributes : list attribute :=
  [ (u "NACC01", u "±5", u "Accuracy", u "%");
    (u "HSE-HAZ_AREA", u "Zone 1", u "Area Classification", u "");
    (u "CALR01", u "0–100", u "Calibrated Range", u "ppm");
    (u "DETCOMM", u "Modbus RTU", u "Detector Communication", u "");
    (u "ENVIRONT", u "IP65", u "Environment Rating", u "");
    (u "ACFS01", u "Fail to Safe", u "Fail Safe State", u "");
    (u "POWREQ", u "12-30 VDC", u "Power Requirement", u "V");
    (u "TEMP01", u "-20 to +60", u "Operating Temperature", u "°C");
    (u "CERTIF", u "ATEX Zone 1", u "Certification", u "");
    (u "MFGR", u "Honeywell", u "Manufacturer", u "");
    (u "MODEL", u "Gas Monitor", u "Model/Type", u "");
    (u "CONN01", u "1/2 NPT", u "Connection", u "");
    (u "HOUSING", u "Weatherproof", u "Housing Type", u "");
    (u "DISPLAY", u "LED Indicators", u "Display Type", u "");
    (u "ALARM", u "Relay Output", u "Alarm Type", u "") ].

(** The loop over [sample_attributes]: one row each, no skipping. *)
Definition sample_row (functional_location doc_ref : str)
    (st : emit_state) (a : attribute) : emit_state :=
  let '(sample_data, position_counter) := st in
  let '(attr_name, attr_value, description, uom) := a in
  (sample_data ++
     [mk_row functional_location position_counter attr_name attr_value
        description uom doc_ref],
   (position_counter + 1)%Z).

Definition _generate_sample_attributes (pdf_name : str) : list row :=
  let doc_ref := doc_ref_of_name db pdf_name in
  let functional_location := u "11-18-XTGD-5404" in
  fst (fold_left (sample_row functional_location doc_ref) sample_attributes
         ([], 1%Z)).

End Sample.

(* ================================================================= *)
(** ** [_is_low_quality_extraction] *)

(** Python evaluates the three comparisons below in binary64.  The operands
    are quotients and products of string lengths with the literals 0.3, 0.05
    and 1.5; for lengths below 2^48 rounding never moves one of them across
    the other side, so the model compares the exact rationals. *)
Definition Qltb (x y : Q) : bool := negb (Qle_bool y x).

Definition QZ (n : Z) : Q := inject_Z n.

Section Quality.
Variable db : unicode_db.

Definition replacement_char : char := 65533.  (* U+FFFD *)
Definition backslash : char := 92.
Definition vertical_bar : char := 124.

(** [sum(1 for c in text if c.isalpha())] *)
Definition alpha_count (text : str) : Z := count (isalpha db) text.

(** [text.count('\ufffd') + text.count('\\') + text.count('|')] *)
Definition problem_count (text : str) : Z :=
  (count (N.eqb replacement_char) text
   + count (N.eqb backslash) text
   + count (N.eqb vertical_bar) text)%Z.

Definition _is_low_quality_extraction (text : str) : bool :=
  if (len (strip text) <? 50)%Z then true
  else
    let alpha_chars := alpha_count text in
    let total_chars := len text in
    if (0 <? total_chars)%Z
       && Qltb (QZ alpha_chars / QZ total_chars)%Q 0.3%Q
    then true
    else
      let problem_chars := problem_count text in
      if Qltb (QZ total_chars * 0.05)%Q (QZ problem_chars) then true
      else false.

End Quality.

(* ================================================================= *)
(** ** Exceptions *)

Inductive exn :=
| FileNotFoundError (msg : str)
| ValueError (msg : str)
| Exception (msg : str).   (* any other subclass of Exception *)

(** [str(e)] *)
Definition exn_str (e : exn) : str :=
  match e with
  | FileNotFoundError msg | ValueError msg | Exception msg => msg
  end.

Inductive result (A : Type) :=
| Return (a : A)
| Raise (e : exn).
Arguments Return {A} a.
Arguments Raise {A} e.

Definition bind {A B : Type} (c : result A) (k : A -> result B) : result B :=
  match c with
  | Return a => k a
  | Raise e => Raise e
  end.

Notation "x <- c ;; k" := (bind c (fun x => k))
  (at level 61, c at next level, right associativity).
Notation "' p <- c ;; k" := (bind c (fun x => let p := x in k))
  (at level 61, p pattern, c at next level, right associativity).

(* ================================================================= *)
(** ** The orchestrators *)

(** What the file system and the two extraction methods answer for one
    [pdf_path].  [extract_text_from_pdf] and [ocr_pdf] are method calls: the
    orchestrators only see a returned text or a raised exception. *)
Record pdf_path := {
  path_str : str;                      (* the path itself, as a string *)
  os_path_exists : bool;               (* os.path.exists(pdf_path) *)
  path_stem : str;                     (* Path(pdf_path).stem *)
  extract_text_from_pdf : result str; (* self.extract_text_from_pdf(pdf_path) *)
  ocr_pdf : result str                 (* self.ocr_pdf(pdf_path) *)
}.

Inductive status :=
| success | sample_data | failed_with_sample | error_with_sample
| complete_failure.

(** An entry of [processing_summary]. *)
Record summary := {
  file : str;
  summary_status : status;
  method : str;
  rows : Z;
  text_length : Z;
  error : option str
}.

Definition nonempty {A : Type} (l : list A) : bool :=
  match l with [] => false | _ => true end.

Section Orchestrators.
Variable db : unicode_db.
(** [self.write_to_excel(data, excel_path)]: returns, or re-raises what the
    spreadsheet library raised. *)
Variable write_to_excel : list row -> result unit.

Definition msg_not_found (pdf : pdf_path) : str :=
  u "PDF file not found: " ++ path_str pdf.
Definition msg_no_text (use_ocr : bool) : str :=
  u "No text could be extracted from the PDF. "
  ++ (if use_ocr then u ""
      else u "This might be a scanned PDF. Try using --ocr flag. ")
  ++ u "Ensure Tesseract and Poppler are properly installed.".
Definition msg_no_data : str :=
  u "No data could be structured from the extracted text".
Definition msg_no_data_any : str :=
  u "No structured data could be created from any PDF".

(** [len(ocr_text.strip()) > len(text.strip()) * 1.5] *)
Definition ocr_improves (text ocr_text : str) : bool :=
  Qltb (QZ (len (strip text)) * 1.5)%Q (QZ (len (strip ocr_text))).

(** The text [process_pdf_to_excel] goes on with (its lines up to the
    [if not text.strip()] test). *)
Definition select_text (pdf : pdf_path) (use_ocr : bool) : result str :=
  if use_ocr then ocr_pdf pdf
  else
    text <- extract_text_from_pdf pdf ;;
    if negb (blank text) then
      if (50 <? len (strip text))%Z && negb (_is_low_quality_extraction db text)
      then Return text
      else
        ocr_text <- ocr_pdf pdf ;;
        if negb (blank ocr_text) && ocr_improves text ocr_text
        then Return ocr_text
        else Return text
    else ocr_pdf pdf.

(** [structured_data] after the sample fallback of [process_pdf_to_excel]. *)
Definition structure_or_sample (text pdf_name : str) : list row :=
  let structured_data := format_text_to_structure db text (Some pdf_name) in
  if nonempty structured_data then structured_data
  else _generate_sample_attributes db pdf_name.

(** [process_pdf_to_excel(pdf_path, excel_path, use_ocr)] *)
Definition process_pdf_to_excel (pdf : pdf_path) (use_ocr : bool)
  : result Z :=
  if negb (os_path_exists pdf)
  then Raise (FileNotFoundError (msg_not_found pdf))
  else
    text <- select_text pdf use_ocr ;;
    if blank text then Raise (ValueError (msg_no_text use_ocr))
    else
      let pdf_name := path_stem pdf in
      let structured_data := structure_or_sample text pdf_name in
      if negb (nonempty structured_data)
      then Raise (ValueError msg_no_data)
      else
        _ <- write_to_excel structured_data ;;
        Return (Z.of_nat (length structured_data)).

(** The text and [processing_method] of one round of
    [process_multiple_pdfs_to_excel]. *)
Definition select_text_multi (pdf : pdf_path) (use_ocr : bool)
  : result (str * str) :=
  if use_ocr then
    text <- ocr_pdf pdf ;; Return (text, u "forced_ocr")
  else
    text <- extract_text_from_pdf pdf ;;
    if negb (blank text) && (100 <? len (strip text))%Z
       && negb (_is_low_quality_extraction db text)
    then Return (text, u "text_extraction")
    else
      ocr_text <- ocr_pdf pdf ;;
      if negb (blank ocr_text) then
        if blank text || ocr_improves text ocr_text
        then Return (ocr_text, u "ocr_fallback")
        else Return (text, u "text_extraction")
      else Return (text, u "failed").

Definition entry (pdf_name : str) (st : status) (meth : str)
    (data : list row) (tl : Z) (err : option str) : summary :=
  {| file := pdf_name; summary_status := st; method := meth;
     rows := Z.of_nat (length data); text_length := tl; error := err |}.

(** The accumulators of the loop:
    [(all_structured_data, processing_summary)]. *)
Definition batch_state := (list row * list summary)%type.

(** The [try] body of one round: the rows and the entry it adds, or the
    exception that leaves it.  Both accumulators are only touched after the
    last call that can raise. *)
Definition try_one (pdf : pdf_path) (use_ocr : bool)
  : result (list row * list summary) :=
  let pdf_name := path_stem pdf in
  '(text, processing_method) <- select_text_multi pdf use_ocr ;;
  if negb (blank text) then
    let structured_data := format_text_to_structure db text (Some pdf_name) in
    if nonempty structured_data then
      Return (structured_data,
              [entry pdf_name success processing_method structured_data
                 (len (strip text)) None])
    else
      let structured_data := _generate_sample_attributes db pdf_name in
      if nonempty structured_data then
        Return (structured_data,
                [entry pdf_name sample_data (u "fallback") structured_data
                   0 None])
      else Return ([], [])
  else
    let structured_data := _generate_sample_attributes db pdf_name in
    if nonempty structured_data then
      Return (structured_data,
              [entry pdf_name failed_with_sample (u "fallback")
                 structured_data 0 None])
    else Return ([], []).

(** One round of [for pdf_path in pdf_paths].  The handler's own [try]
    around [_generate_sample_attributes] has nothing to catch: that function
    is total, so the [complete_failure] entry is never written. *)
Definition batch_round (use_ocr : bool) (st : batch_state) (pdf : pdf_path)
  : batch_state :=
  let '(all_structured_data, processing_summary) := st in
  if negb (os_path_exists pdf) then st
  else
    match try_one pdf use_ocr with
    | Return (data, entries) =>
        (all_structured_data ++ data, processing_summary ++ entries)
    | Raise e =>
        let pdf_name := path_stem pdf in
        let structured_data := _generate_sample_attributes db pdf_name in
        if nonempty structured_data then
          (all_structured_data ++ structured_data,
           processing_summary ++
             [entry pdf_name error_with_sample (u "fallback")
                structured_data 0 (Some (exn_str e))])
        else st
    end.

(** What one document adds to the two accumulators. *)
Definition contribution (use_ocr : bool) (pdf : pdf_path) : batch_state :=
  batch_round use_ocr ([], []) pdf.

Definition batch_loop (pdf_paths : list pdf_path) (use_ocr : bool)
  : batch_state :=
  fold_left (batch_round use_ocr) pdf_paths ([], []).

(** [process_multiple_pdfs_to_excel(pdf_paths, excel_path, use_ocr)] *)
Definition process_multiple_pdfs_to_excel (pdf_paths : list pdf_path)
    (use_ocr : bool) : result Z :=
  let '(all_structured_data, processing_summary) :=
    batch_loop pdf_paths use_ocr in
  if negb (nonempty all_structured_data)
  then Raise (ValueError msg_no_data_any)
  else
    _ <- write_to_excel all_structured_data ;;
    Return (Z.of_nat (length all_structured_data)).

End Orchestrators.

(* ================================================================= *)
(** ** The two extraction methods *)

(** [extract_text_from_pdf] and [ocr_pdf] over what PyPDF2, pdf2image and
    pytesseract answer: [None] stands for a call that raises. *)
Module Extractors.

(** One page of [reader.pages]: the result of [page.extract_text()]. *)
Definition page := option str.

Definition add_page (text : str) (p : page) : str :=
  match p with
  | Some page_text =>
      if negb (blank page_text) then text ++ page_text ++ [10] else text
  | None => text                       (* logged, [continue] *)
  end.

(** [reader = None]: opening or parsing the file raised. *)
Definition extract_text_from_pdf (reader : option (list page)) : str :=
  match reader with
  | Some pages => strip (fold_left add_page pages [])
  | None => []
  end.

(** One image of [convert_from_path]: what [image_to_string] answers with
    the whitelist configuration and with the alternative one. *)
Record page_image := {
  primary : option str;
  alternative : option str
}.

(** The state of the page loop: [(text, successful_pages)]. *)
Definition ocr_page (st : str * nat) (image : page_image) : str * nat :=
  let '(text, successful_pages) := st in
  match primary image with
  | Some page_text =>
      if negb (blank page_text)
      then (text ++ page_text ++ [10], S successful_pages)
      else
        match alternative image with
        | Some alt_text =>
            if negb (blank alt_text)
            then (text ++ alt_text ++ [10], S successful_pages)
            else st
        | None => st
        end
  | None => st
  end.

(** [images = None]: [convert_from_path] raised (no poppler, bad file). *)
Definition ocr_pdf (images : option (list page_image)) : str :=
  match images with
  | Some imgs =>
      let '(text, successful_pages) := fold_left ocr_page imgs ([], O) in
      match successful_pages with
      | O => []
      | S _ => strip text
      end
  | None => []
  end.

End Extractors.

(** A file [name].pdf of the working directory seen through the two methods
    above: neither raises. *)
Definition pdf_on_disk (name : str)
    (reader : option (list Extractors.page))
    (images : option (list Extractors.page_image)) : pdf_path :=
  {| path_str := name ++ u ".pdf";
     os_path_exists := true;
     path_stem := name;
     extract_text_from_pdf := Return (Extractors.extract_text_from_pdf reader);
     ocr_pdf := Return (Extractors.ocr_pdf images) |}.

(* ================================================================= *)
(** ** Vocabulary of the statements *)

Section EmitInvariant.
Variables functional_location full_doc_ref : str.

(** What one round of either loop does to [(structured_data,
    position_counter)]: nothing, or one row numbered with the counter, which
    then advances. *)
Inductive round : emit_state -> emit_state -> Prop :=
| round_skip st : round st st
| round_emit data pc name value description uom :
    round (data, pc)
      (data ++ [mk_row functional_location pc name value description uom
                  full_doc_ref],
       (pc + 1)%Z).

(** The invariant of both loops. *)
Definition numbered (st : emit_state) : Prop :=
  let '(data, pc) := st in
  pc = (1 + Z.of_nat (length data))%Z
  /\ map col_KLART data = map Z.of_nat (seq 1 (length data))
  /\ Forall (fun r => col_Field r = functional_location
                      /\ col_REF r = full_doc_ref) data.

End EmitInvariant.

(** The cells a template entry fills. *)
Definition attribute_of (r : row) : attribute :=
  (col_POSNUMMER r, col_ATNAM r, col_ATWRT r, col_UoM r).

(** The test before OCR is tried, in either orchestrator. *)
Definition passes_gate (db : unicode_db) (threshold : Z) (text : str) : bool :=
  negb (blank text) && (threshold <? len (strip text))%Z
  && negb (_is_low_quality_extraction db text).

(** OCR text is kept: it is not empty, and the direct text was empty or is
    more than 1.5 times shorter. *)
Definition keeps_ocr (text ocr_text : str) : bool :=
  negb (blank ocr_text) && (blank text || ocr_improves text ocr_text).

Definition text_extraction : str := u "text_extraction".
Definition ocr_fallback : str := u "ocr_fallback".
Definition failed : str := u "failed".

(** Inputs on which the statements below are run. *)
Definition sample_name : str := u "P11569-11-99-40-2619".

Definition letters_and_digits : str := repeat 97 800 ++ repeat 49 200.

Definition always_writes (data : list row) : result unit := Return tt.

Definition disk_full (data : list row) : result unit :=
  Raise (Exception (u "disk full")).

Definition short_text : str := repeat 97 40.
Definition short_pdf_without_ocr : pdf_path :=
  {| path_str := u "short.pdf";
     os_path_exists := true;
     path_stem := u "short";
     extract_text_from_pdf := Return short_text;
     ocr_pdf := Return [] |}.

Definition text_of_40 : str := repeat 97 40.
Definition text_of_45 : str := repeat 98 45.
Definition pdf_40_45 : pdf_path :=
  {| path_str := u "scan.pdf";
     os_path_exists := true;
     path_stem := u "scan";
     extract_text_from_pdf := Return text_of_40;
     ocr_pdf := Return text_of_45 |}.

Definition empty_pdf : pdf_path :=
  pdf_on_disk (u "P11569-11-99-40-1605-1") (Some [Some (u " "); None]) None.

Definition good_pdf : pdf_path :=
  {| path_str := u "good.pdf";
     os_path_exists := true;
     path_stem := u "good";
     extract_text_from_pdf := Return (u "H2S");
     ocr_pdf := Return (repeat 97 200) |}.

Definition raising_pdf : pdf_path :=
  {| path_str := u "broken.pdf";
     os_path_exists := true;
     path_stem := u "broken";
     extract_text_from_pdf := Raise (Exception (u "out of memory"));
     ocr_pdf := Return (u "") |}.

(* ================================================================= *)
(** ** Further vocabulary *)

(** [a] occurs in [b] as a contiguous piece. *)
Definition infix (a b : str) : Prop := exists pre post, b = pre ++ a ++ post.

(** No white space in [t]. *)
Definition no_space (t : str) : bool := forallb (fun c => negb (isspace c)) t.


(** What the line loop promises of a row it emits from [text]. *)
Definition scanned_shape (db : unicode_db) (text : str) (r : row) : Prop :=
  col_POSNUMMER r = u "SPEC" ++ format_02d (col_KLART r)
  /\ col_ATNAM r <> []
  /\ no_space (col_ATNAM r) = true
  /\ (exists c, In c (col_ATNAM r) /\ is_decimal db c = true)
  /\ infix (col_ATNAM r) text
  /\ (len (col_ATWRT r) <= 50)%Z
  /\ strip (col_ATWRT r) = col_ATWRT r
  /\ In (col_UoM r) (u "" :: units).

(** The fifteen template rows for a location and a reference. *)
Definition template_rows (functional_location full_doc_ref : str) : list row :=
  map (fun '(pc, (name, value, description, uom)) =>
         mk_row functional_location pc name value description uom
           full_doc_ref)
    (combine (map Z.of_nat (seq 1 15)) equipment_attributes).

Definition placeholder_location : str := u "11-18-XTGD-5403".

(** [sum(...)] of integers. *)
Fixpoint sum_Z (l : list Z) : Z :=
  match l with
  | [] => 0%Z
  | x :: l' => (x + sum_Z l')%Z
  end.

(** The statuses the batch loop can write. *)
Definition written_status (s : status) : Prop :=
  s = success \/ s = failed_with_sample \/ s = error_with_sample.

(** The texts of the pages that count: the page did not raise and its text
    is not blank. *)
Definition page_texts (pages : list Extractors.page) : list str :=
  flat_map (fun p => match p with
                     | Some page_text =>
                         if blank page_text then [] else [page_text]
                     | None => []
                     end) pages.

(** The text OCR keeps of one image: the primary answer if it is not blank,
    else the alternative answer if that is not blank. *)
Definition usable_text (image : Extractors.page_image) : Extractors.page :=
  match Extractors.primary image with
  | Some page_text =>
      if negb (blank page_text) then Some page_text
      else match Extractors.alternative image with
           | Some alt_text =>
               if negb (blank alt_text) then Some alt_text else None
           | None => None
           end
  | None => None
  end.

(* ================================================================= *)
(** ** [_is_pdf_scanned] *)

Section Scanned.
Variable db : unicode_db.
(** [c.isdigit() or c.isnumeric()] outside ASCII and outside the decimal
    digits (superscripts, fractions, ...). *)
Variable nonascii_numeric : char -> bool.

(** [c.isalnum()] *)
Definition isalnum (c : char) : bool :=
  isalpha db c || is_decimal db c
  || (if c <? 128 then false else nonascii_numeric c).

(** [char.isalnum() or char.isspace() or char in '.,()-_:+=%'] *)
Definition readable (c : char) : bool :=
  isalnum c || isspace c || existsb (N.eqb c) (u ".,()-_:+=%").

(** [s.count(sub)] for a non-empty [sub]: occurrences that do not overlap,
    from the left.  [skip] characters of the last occurrence are still to be
    passed. *)
Fixpoint count_sub_from (sub : str) (skip : nat) (s : str) : Z :=
  match s with
  | [] => 0
  | _ :: s' =>
      match skip with
      | S skip' => count_sub_from sub skip' s'
      | O =>
          if startswith s sub
          then (1 + count_sub_from sub (length sub - 1) s')%Z
          else count_sub_from sub O s'
      end
  end.

Definition count_sub (s sub : str) : Z := count_sub_from sub O s.

Definition ocr_indicators : list str :=
  [ [replacement_char]; u "|"; [backslash]; u "//"; u "]]"; u "[["; u "{{";
    u "}}" ].

(** The state of the sampling loop:
    [(total_text, readable_chars, total_chars)]. *)
Definition sample_state := (str * Z * Z)%type.

(** [for char in page_text: ...] *)
Definition count_char (st : Z * Z) (c : char) : Z * Z :=
  let '(readable_chars, total_chars) := st in
  ((if readable c then readable_chars + 1 else readable_chars)%Z,
   (total_chars + 1)%Z).

(** One round of [for i in range(pages_to_sample)]; a page that raises is
    passed over. *)
Definition sample_page (st : sample_state) (p : Extractors.page)
  : sample_state :=
  let '(total_text, readable_chars, total_chars) := st in
  match p with
  | Some page_text =>
      let '(r, t) := fold_left count_char page_text
                       (readable_chars, total_chars) in
      (total_text ++ page_text, r, t)
  | None => st
  end.

(** [_is_pdf_scanned(pdf_path)] over what PyPDF2 answers ([None]: opening or
    parsing raised).  The two ratios are compared as exact rationals, as in
    [_is_low_quality_extraction]. *)
Definition _is_pdf_scanned (reader : option (list Extractors.page)) : bool :=
  match reader with
  | None => true
  | Some [] => true
  | Some pages =>
      let '(total_text, readable_chars, total_chars) :=
        fold_left sample_page (firstn 3 pages) ([], 0%Z, 0%Z) in
      if (len (strip total_text) <? 100)%Z then true
      else if (0 <? total_chars)%Z
              && Qltb (QZ readable_chars / QZ total_chars)%Q 0.5%Q
      then true
      else
        let artifact_count :=
          fold_left Z.add (map (count_sub total_text) ocr_indicators) 0%Z in
        if Qltb (QZ (len total_text) * 0.02)%Q (QZ artifact_count) then true
        else false
  end.

End Scanned.

(* ================================================================= *)
(** ** [batch_process] and [main] *)

(** What the operating system answers to the command line's paths. *)
Record world := {
  path_exists : str -> bool;                  (* Path(p).exists() *)
  isdir : str -> bool;                        (* os.path.isdir(p) *)
  mkdir : str -> result unit;                 (* Path(p).mkdir(exist_ok=True) *)
  (* Path(dir).glob(pattern): the name of each file found and the file *)
  glob : str -> str -> list (str * pdf_path);
  (* the file a path names; its [path_str] is the path it was asked for *)
  file_at : str -> pdf_path;
  xlsx_in : str -> str -> str;   (* str(Path(dir) / f"{stem}.xlsx") *)
  (* write_to_excel(data, excel_path), by excel_path *)
  write_to_excel_at : str -> list row -> result unit;
  (* print(text) once the texts of the first argument went out: stdout may
     be unable to encode the text, or be closed *)
  stdout : list str -> str -> result unit
}.

(** An entry of [results]. *)
Inductive batch_result :=
| batch_success (file_name : str) (rows_processed : Z)
| batch_failed (file_name : str) (error_message : str).

Section CommandLine.
Variable db : unicode_db.
Variable w : world.

(** The body of [for pdf_file in pdf_files]. *)
Definition batch_file (output_dir : str) (use_ocr : bool)
    (results : list batch_result) (f : str * pdf_path) : list batch_result :=
  let '(name, pdf_file) := f in
  let excel_file := xlsx_in w output_dir (path_stem pdf_file) in
  match process_pdf_to_excel db (write_to_excel_at w excel_file) pdf_file
          use_ocr with
  | Return rows_processed => results ++ [batch_success name rows_processed]
  | Raise e => results ++ [batch_failed name (exn_str e)]
  end.

(** [batch_process(input_dir, output_dir, use_ocr)]; [Return None] is the
    bare [return] when no file is found. *)
Definition batch_process (input_dir output_dir : str) (use_ocr : bool)
  : result (option (list batch_result)) :=
  if negb (path_exists w input_dir)
  then Raise (FileNotFoundError (u "Input directory not found: " ++ input_dir))
  else
    _ <- mkdir w output_dir ;;
    match glob w input_dir (u "*.pdf") with
    | [] => Return None
    | pdf_files =>
        Return (Some (fold_left (batch_file output_dir use_ocr) pdf_files []))
    end.

(** The parsed command line. *)
Record args := {
  arg_input : str;
  arg_output : option str;
  arg_ocr : bool;
  arg_batch : bool;
  arg_combine : bool;
  arg_verbose : bool
}.

(** [args.output], or the default when [not args.output]. *)
Definition output_or (a : args) (default : str) : str :=
  match arg_output a with
  | Some (c :: o) => c :: o
  | _ => default
  end.

(** [print(text)] once [printed] went out; it answers what has gone out
    after it. *)
Definition print (printed : list str) (text : str) : result (list str) :=
  _ <- stdout w printed text ;;
  Return (printed ++ [text]).

(** The body of [for result in results]; a round after one that raised does
    not run. *)
Definition print_result (printed : result (list str)) (r : batch_result)
  : result (list str) :=
  printed <- printed ;;
  match r with
  | batch_success file_name rows_processed =>
      print printed
        (u "✓ " ++ file_name ++ u ": " ++ str_of_int rows_processed
         ++ u " rows")
  | batch_failed file_name error_message =>
      print printed (u "✗ " ++ file_name ++ u ": " ++ error_message)
  end.

(** The [try] block of [main]. *)
Definition main_body (a : args) : result unit :=
  if arg_combine a then
    let pdf_paths :=
      if isdir w (arg_input a)
      then map snd (glob w (arg_input a) (u "*.pdf")
                    ++ glob w (arg_input a) (u "*.PDF"))
      else map (fun path => file_at w (strip path))
             (split_on 44 (arg_input a)) in
    let output := output_or a (u "combined_output.xlsx") in
    rows_processed <-
      process_multiple_pdfs_to_excel db (write_to_excel_at w output)
        pdf_paths (arg_ocr a) ;;
    printed <-
      print []
        (u "Successfully combined "
         ++ str_of_int (Z.of_nat (length pdf_paths)) ++ u " PDFs") ;;
    printed <- print printed (u "Output: " ++ output) ;;
    _ <- print printed
           (u "Total rows processed: " ++ str_of_int rows_processed) ;;
    Return tt
  else if arg_batch a then
    let output := output_or a (u "./output") in
    results <- batch_process (arg_input a) output (arg_ocr a) ;;
    printed <- print [] (10 :: u "Batch processing results:") ;;
    match results with
    | Some results =>
        _ <- fold_left print_result results (Return printed) ;;
        Return tt
    | None =>   (* [for result in results] over [None] *)
        Raise (Exception (u "'NoneType' object is not iterable"))
    end
  else
    let pdf := file_at w (arg_input a) in
    let output := output_or a (path_stem pdf ++ u ".xlsx") in
    rows_processed <-
      process_pdf_to_excel db (write_to_excel_at w output) pdf
        (arg_ocr a) ;;
    printed <- print [] (u "Successfully processed " ++ arg_input a) ;;
    printed <- print printed (u "Output: " ++ output) ;;
    _ <- print printed (u "Rows processed: " ++ str_of_int rows_processed) ;;
    Return tt.

(** The exit status of [main]: [sys.exit(1)] in the handler of the [try]
    block, 0 when the function returns. *)
Definition main (a : args) : Z :=
  match main_body a with
  | Return _ => 0%Z
  | Raise _ => 1%Z
  end.

End CommandLine.

(** What [batch_process] records for one file. *)
Definition batch_outcome (db : unicode_db) (w : world) (output_dir : str)
    (use_ocr : bool) (f : str * pdf_path) : batch_result :=
  match process_pdf_to_excel db
          (write_to_excel_at w (xlsx_in w output_dir (path_stem (snd f))))
          (snd f) use_ocr with
  | Return rows_processed => batch_success (fst f) rows_processed
  | Raise e => batch_failed (fst f) (exn_str e)
  end.

Definition result_file (r : batch_result) : str :=
  match r with
  | batch_success name _ | batch_failed name _ => name
  end.

(** The joined texts of the pages that did not raise. *)
Definition sampled_text (pages : list Extractors.page) : str :=
  flat_map (fun p => match p with Some page_text => page_text | None => [] end)
    pages.


(** What batch mode prints for an entry of the results: a check mark or a
    ballot cross, the file name, and the row count or the error message. *)
Definition report_line (r : batch_result) : str :=
  match r with
  | batch_success name n =>
      [10003] ++ u " " ++ name ++ u ": " ++ str_of_int n ++ u " rows"
  | batch_failed name msg => [10007] ++ u " " ++ name ++ u ": " ++ msg
  end.


(** The file [pdf] reached under the path [p]. *)
Definition at_path (p : str) (pdf : pdf_path) : pdf_path :=
  {| path_str := p;
     os_path_exists := os_path_exists pdf;
     path_stem := path_stem pdf;
     extract_text_from_pdf := extract_text_from_pdf pdf;
     ocr_pdf := ocr_pdf pdf |}.

(** A directory [in] with two files, one of them without any text, a
    working output directory, and a stdout that takes everything. *)
Definition two_file_world : world :=
  {| path_exists := fun p => Str.eqb p (u "in");
     isdir := fun p => Str.eqb p (u "in");
     mkdir := fun _ => Return tt;
     glob := fun dir pattern =>
       if Str.eqb dir (u "in") && Str.eqb pattern (u "*.pdf")
       then [(u "good.pdf", at_path (u "in/good.pdf") good_pdf);
             (u "P11569-11-99-40-1605-1.pdf",
              at_path (u "in/P11569-11-99-40-1605-1.pdf") empty_pdf)]
       else [];
     file_at := fun p =>
       at_path p (if Str.eqb p (u "in/good.pdf") then good_pdf
                  else empty_pdf);
     xlsx_in := fun dir stem => dir ++ u "/" ++ stem ++ u ".xlsx";
     write_to_excel_at := fun _ => always_writes;
     stdout := fun _ _ => Return tt |}.

(** The same, with a stdout that encodes ASCII only. *)
Definition ascii_stdout_world : world :=
  {| path_exists := path_exists two_file_world;
     isdir := isdir two_file_world;
     mkdir := mkdir two_file_world;
     glob := glob two_file_world;
     file_at := file_at two_file_world;
     xlsx_in := xlsx_in two_file_world;
     write_to_excel_at := write_to_excel_at two_file_world;
     stdout := fun _ text =>
       if forallb (fun c => (c <? 128)%N) text then Return tt
       else Raise (Exception (u "'ascii' codec can't encode character")) |}.

Definition batch_args : args :=
  {| arg_input := u "in"; arg_output := None; arg_ocr := false;
     arg_batch := true; arg_combine := false; arg_verbose := false |}.



(** A long text of letters, and a file that has it although its OCR
    breaks. *)
Definition long_text : str := repeat 97 120.
Definition good_text_pdf : pdf_path :=
  {| path_str := u "typed.pdf";
     os_path_exists := true;
     path_stem := u "typed";
     extract_text_from_pdf := Return long_text;
     ocr_pdf := Raise (Exception (u "no poppler")) |}.


(** [sum(total_text.count(indicator) for indicator in ocr_indicators)] *)
Definition artifact_count (total_text : str) : Z :=
  fold_left Z.add (map (count_sub total_text) ocr_indicators) 0%Z.

(* ================================================================= *)
(** * Properties *)

(** ** Strings *)

Section StrFacts.

Lemma lstrip_head (s : str) :
  match lstrip s with
  | c :: _ => isspace c = false
  | [] => True
  end.
Proof.
  induction s as [|c s IH]; simpl; [exact I|].
  destruct (isspace c) eqn:E; [exact IH|exact E].
Qed.

Lemma lstrip_fixed (s : str) :
  match s with c :: _ => isspace c = false | [] => True end ->
  lstrip s = s.
Proof.
  destruct s as [|c s]; simpl; [reflexivity|].
  intros ->; reflexivity.
Qed.

Lemma lstrip_split (s : str) :
  exists p, s = p ++ lstrip s /\ forallb isspace p = true.
Proof.
  induction s as [|c s [p [E F]]]; simpl.
  - exists []; split; reflexivity.
  - destruct (isspace c) eqn:Ec.
    + exists (c :: p); simpl; rewrite Ec, F.
      split; [f_equal; exact E|reflexivity].
    + exists []; split; reflexivity.
Qed.

(** The last character of what [lstrip] leaves is the last of its input. *)
Lemma lstrip_keeps_last (s : str) (c : char) (t : str) :
  lstrip s = c :: t -> exists q, s = q ++ [last (c :: t) c].
Proof.
  intros E.
  destruct (lstrip_split s) as [p [Hs _]].
  rewrite E in Hs.
  destruct (@exists_last _ (c :: t)) as [q [d Hq]]; [discriminate|].
  exists (p ++ q).
  rewrite Hs, Hq, last_last, <- app_assoc; reflexivity.
Qed.

Lemma strip_idempotent (s : str) : strip (strip s) = strip s.
Proof.
  unfold strip, rstrip.
  set (a := lstrip s).
  destruct (lstrip (rev a)) as [|c t] eqn:Eb; [reflexivity|].
  assert (Hhead : isspace c = false).
  { pose proof (lstrip_head (rev a)) as H; rewrite Eb in H; exact H. }
  (* the last character of [c :: t] is the head of [a], not a space *)
  assert (Hlast : isspace (last (c :: t) c) = false).
  { destruct (lstrip_keeps_last _ Eb) as [q Hq].
    apply (f_equal (@rev char)) in Hq.
    rewrite rev_involutive, rev_app_distr in Hq; simpl in Hq.
    pose proof (lstrip_head s) as H; fold a in H; rewrite Hq in H; exact H. }
  assert (Hrev : lstrip (rev (c :: t)) = rev (c :: t)).
  { apply lstrip_fixed.
    destruct (@exists_last _ (c :: t)) as [q [d Hq]]; [discriminate|].
    rewrite Hq in Hlast |- *; rewrite last_last in Hlast.
    rewrite rev_app_distr; simpl; exact Hlast. }
  rewrite Hrev, rev_involutive.
  rewrite (lstrip_fixed (c :: t)) by exact Hhead.
  reflexivity.
Qed.

Lemma blank_nil (s : str) : blank s = true -> strip s = [].
Proof. unfold blank; destruct (strip s); [reflexivity|discriminate]. Qed.

Lemma blank_stripped (s : str) : blank s = true -> strip s = s -> s = [].
Proof. intros B E; rewrite <- E; apply blank_nil, B. Qed.

Lemma blank_len (s : str) : blank s = false <-> (0 < len (strip s))%Z.
Proof.
  unfold blank, len; destruct (strip s); simpl; split; intros H;
    try reflexivity; try discriminate; lia.
Qed.

Lemma filter_rev_length (p : char -> bool) (s : str) :
  length (filter p (rev s)) = length (filter p s).
Proof.
  induction s as [|c s IH]; simpl; [reflexivity|].
  rewrite filter_app, length_app, IH; simpl.
  destruct (p c); simpl; lia.
Qed.

Lemma count_rev (p : char -> bool) (s : str) : count p (rev s) = count p s.
Proof. unfold count; rewrite filter_rev_length; reflexivity. Qed.

Lemma count_le_len (p : char -> bool) (s : str) : (count p s <= len s)%Z.
Proof.
  unfold count, len; apply Nat2Z.inj_le, filter_length_le.
Qed.

Lemma count_nonneg (p : char -> bool) (s : str) : (0 <= count p s)%Z.
Proof. unfold count; lia. Qed.

Section NotSpace.
Variable p : char -> bool.
Hypothesis p_not_space : forall c, p c = true -> isspace c = false.

Lemma count_lstrip (s : str) : count p (lstrip s) = count p s.
Proof.
  unfold count; induction s as [|c s IH]; simpl; [reflexivity|].
  destruct (isspace c) eqn:E; [|reflexivity].
  destruct (p c) eqn:Ep; [|exact IH].
  rewrite (p_not_space Ep) in E; discriminate.
Qed.

(** Stripping removes white space only. *)
Lemma count_strip (s : str) : count p (strip s) = count p s.
Proof.
  unfold strip, rstrip.
  rewrite count_rev, count_lstrip, count_rev, count_lstrip; reflexivity.
Qed.

End NotSpace.

End StrFacts.

Lemma isalpha_not_space (db : unicode_db) (c : char) :
  isalpha db c = true -> isspace c = false.
Proof.
  unfold isalpha.
  destruct (c <? 128)%N eqn:E.
  - intros H.
    assert (B : (65 <= c <= 122)%N).
    { apply orb_true_iff in H; destruct H as [H|H];
        apply andb_true_iff in H; destruct H as [H1 H2];
        apply N.leb_le in H1, H2; lia. }
    unfold isspace.
    rewrite (proj2 (N.leb_gt c 13)), (proj2 (N.leb_gt c 32)) by lia.
    rewrite (proj2 (N.leb_gt 8192 c)) by lia.
    rewrite (proj2 (N.eqb_neq c 133)), (proj2 (N.eqb_neq c 160)),
      (proj2 (N.eqb_neq c 5760)), (proj2 (N.eqb_neq c 8232)),
      (proj2 (N.eqb_neq c 8233)), (proj2 (N.eqb_neq c 8239)),
      (proj2 (N.eqb_neq c 8287)), (proj2 (N.eqb_neq c 12288)) by lia.
    rewrite !andb_false_r; reflexivity.
  - apply alpha_not_space.
Qed.

(* ================================================================= *)
(** ** The string and pattern operations on concrete subjects *)

(** The values on the right are what CPython 3 answers. *)

Example strip_unicode_space :
  strip ([32; 28; 31] ++ u "a b" ++ [133; 160; 8195; 10]) = u "a b".
Proof. reflexivity. Qed.

Example split_keeps_empty_pieces :
  split_on 10 (u "a" ++ [10] ++ u "b" ++ [10; 10] ++ u "c")
  = [u "a"; u "b"; u ""; u "c"]
  /\ split_on 10 (u "") = [u ""].
Proof. split; reflexivity. Qed.

Example split_whitespace_runs :
  split_ws (u "  Range  0-50 ppm ") = [u "Range"; u "0-50"; u "ppm"].
Proof. reflexivity. Qed.

Example format_02d_values :
  map format_02d [0; 5; 16; 123; -5]%Z
  = [u "00"; u "05"; u "16"; u "123"; u "-5"].
Proof. reflexivity. Qed.

Example search_doc_ref :
  map (fun s => search (doc_ref_pattern ascii_db) s)
    [u "P11569-11-99-40-2619"; u "xx 12.3-4-5P6 "; u "a1.2.3.4.5";
     u "example"; u "P11569-11-99"]
  = [Some (u "P11569-11-99-40"); Some (u "12.3-4-5"); Some (u "1.2.3.4");
     None; None].
Proof. vm_compute; reflexivity. Qed.

Example search_location_patterns :
  map (fun r => search r (u "at 11-18-XTGD-5403.")) (location_patterns ascii_db)
  = [Some (u "11-18-XTGD-5403"); Some (u "XTGD-5403"); Some (u "11-18-XTGD")].
Proof. vm_compute; reflexivity. Qed.

(** Only the leftmost match of each pattern is measured: a short one hides a
    longer one further right. *)
Example short_match_hides_longer :
  search (nth 1 (location_patterns ascii_db) dash) (u "AB-1 XYZ-123456")
  = Some (u "AB-1")
  /\ line_location (location_patterns ascii_db) (u "AB-1 XYZ-123456")
     = None.
Proof. split; vm_compute; reflexivity. Qed.

Example scanned_rows :
  map (fun r => (col_KLART r, col_POSNUMMER r, col_ATNAM r, col_ATWRT r,
                 col_UoM r))
    (skipn 15
       (format_text_to_structure ascii_db
          (u "Gas detector H2S" ++ [10] ++ u "  Range 0-50 ppm at 24 VDC "
           ++ [10] ++ u "Sheet 1 of 2 ppm 5" ++ [10]
           ++ u "Alarm level 10 % LEL")
          None))
  = [ (16%Z, u "SPEC16", u "H2S", u "Gas detector H2S", u "");
      (17%Z, u "SPEC17", u "0-50", u "Range 0-50 ppm at", u "ppm");
      (18%Z, u "SPEC18", u "10", u "Alarm level 10 % LEL", u "%") ].
Proof. vm_compute; reflexivity. Qed.

(* ================================================================= *)
(** ** The two emission loops *)

Section EmitFacts.
Variable db : unicode_db.

Variables fl ref : str.

Lemma emit_attribute_round st a :
  round fl ref st (emit_attribute fl ref st a).
Proof.
  destruct st as [data pc], a as [[[name value] description] uom].
  unfold emit_attribute.
  destruct (skips _ _); constructor.
Qed.

Lemma scan_line_round st line :
  round fl ref st (scan_line db fl ref st line).
Proof.
  destruct st as [data pc]; unfold scan_line.
  destruct (existsb _ skip_patterns); [constructor|].
  destruct (existsb _ keywords); [|constructor].
  destruct (first_numeric db 0 (split_ws line)) as [[i part]|]; constructor.
Qed.

Lemma numbered_init : numbered fl ref ([], 1%Z).
Proof. repeat split; constructor. Qed.

Lemma round_numbered st st' :
  round fl ref st st' -> numbered fl ref st -> numbered fl ref st'.
Proof.
  intros [ | data pc name value description uom]; [trivial|].
  intros (Hpc & Hpos & Hall); unfold numbered.
  rewrite !length_app, map_app, seq_app, map_app; cbn [length map seq].
  split; [|split].
  - lia.
  - rewrite Hpos; f_equal; unfold mk_row; cbn [col_KLART]; f_equal; lia.
  - apply Forall_app; split; [exact Hall|].
    constructor; [split; reflexivity|constructor].
Qed.

Lemma round_grows st st' :
  round fl ref st st' -> (length (fst st) <= length (fst st'))%nat.
Proof.
  intros [ | data pc name value description uom]; simpl; [lia|].
  rewrite length_app; simpl; lia.
Qed.

Section Loop.
Variables (A : Type) (body : emit_state -> A -> emit_state).
Hypothesis body_round : forall st a, round fl ref st (body st a).

Lemma loop_numbered (l : list A) (st : emit_state) :
  numbered fl ref st -> numbered fl ref (fold_left body l st).
Proof.
  revert st; induction l as [|a l IH]; simpl; intros st H; [exact H|].
  apply IH, (round_numbered (body_round st a)), H.
Qed.

Lemma loop_grows (l : list A) (st : emit_state) :
  (length (fst st) <= length (fst (fold_left body l st)))%nat.
Proof.
  revert st; induction l as [|a l IH]; simpl; intros st; [lia|].
  etransitivity; [apply (round_grows (body_round st a))|apply IH].
Qed.
End Loop.

Lemma emit_template_numbered attrs st :
  numbered fl ref st ->
  numbered fl ref (emit_template fl ref attrs st).
Proof. apply loop_numbered, emit_attribute_round. Qed.

Lemma scan_lines_numbered lines st :
  numbered fl ref st ->
  numbered fl ref (scan_lines db fl ref lines st).
Proof. apply loop_numbered, scan_line_round. Qed.

Lemma scan_lines_grows lines st :
  (length (fst st)
   <= length (fst (scan_lines db fl ref lines st)))%nat.
Proof. apply loop_grows, scan_line_round. Qed.

(** The fixed template: the only empty value (ENVIRONT) meets the counter at
    5, so all fifteen entries are emitted. *)
Lemma emit_equipment_attributes :
  emit_template fl ref equipment_attributes
    ([], 1%Z)
  = (map (fun '(pc, (name, value, description, uom)) =>
            mk_row fl pc name value description uom ref)
       (combine (map Z.of_nat (seq 1 15)) equipment_attributes),
     16%Z).
Proof. reflexivity. Qed.

End EmitFacts.

Section StructureFacts.
Variable db : unicode_db.

(** The rows of a non-blank text, with the state that produced them. *)
Lemma format_numbered (text : str) (pdf_name : option str) :
  blank text = false ->
  exists pc,
    numbered (find_functional_location db (text_lines text))
      (document_reference db pdf_name (text_lines text))
      (format_text_to_structure db text pdf_name, pc).
Proof.
  intros B; unfold format_text_to_structure; rewrite B.
  set (fl := find_functional_location _ _).
  set (ref := document_reference _ _ _).
  assert (H : numbered fl ref
                (scan_lines db fl ref (text_lines text)
                   (emit_template fl ref equipment_attributes ([], 1%Z)))).
  { apply scan_lines_numbered, emit_template_numbered, numbered_init. }
  destruct (scan_lines _ _ _ _ _) as [data pc]; exists pc; exact H.
Qed.

Lemma format_blank (text : str) (pdf_name : option str) :
  blank text = true -> format_text_to_structure db text pdf_name = [].
Proof. intros B; unfold format_text_to_structure; rewrite B; reflexivity. Qed.

Lemma format_at_least_15 (text : str) (pdf_name : option str) :
  blank text = false ->
  (15 <= length (format_text_to_structure db text pdf_name))%nat.
Proof.
  intros B; unfold format_text_to_structure; rewrite B.
  etransitivity; [|apply scan_lines_grows].
  rewrite emit_equipment_attributes; simpl; lia.
Qed.

(** Without a match in the first twenty lines the reference of the file
    name stays. *)
Lemma doc_ref_in_lines_none (lines : list str) (ref : str) :
  (forall line, In line lines -> search (doc_ref_pattern db) line = None) ->
  doc_ref_in_lines db lines ref = ref.
Proof.
  induction lines as [|line rest IH]; simpl; intros H; [reflexivity|].
  rewrite (H line) by (left; reflexivity).
  apply IH; intros l Hl; apply H; right; exact Hl.
Qed.

End StructureFacts.

(* ================================================================= *)
(** ** The structuring engine *)

(** The pattern takes four groups of the five in the sample's file name. *)
Lemma doc_ref_of_sample_name (db : unicode_db) :
  doc_ref_of_name db sample_name = u "P11569-11-99-40-1".
Proof. vm_compute; reflexivity. Qed.

(** So does the second sample file: both names give one reference. *)
Example sample_names_collide (db : unicode_db) :
  doc_ref_of_name db (u "P11569-11-99-40-1605-1")
  = doc_ref_of_name db sample_name.
Proof. vm_compute; reflexivity. Qed.

Lemma rows_share_location_and_reference (db : unicode_db) (text : str)
    (pdf_name : option str) :
  Forall (fun r =>
            col_Field r = find_functional_location db (text_lines text)
            /\ col_REF r = document_reference db pdf_name (text_lines text))
    (format_text_to_structure db text pdf_name).
Proof.
  destruct (blank text) eqn:B.
  - rewrite format_blank by exact B; constructor.
  - destruct (format_numbered db text pdf_name B) as [pc (_ & _ & H)].
    exact H.
Qed.

Lemma rows_nonempty (db : unicode_db) (text : str) (pdf_name : option str) :
  blank text = false -> format_text_to_structure db text pdf_name <> [].
Proof.
  intros B E; pose proof (format_at_least_15 db text pdf_name B) as H.
  rewrite E in H; simpl in H; lia.
Qed.

(** C1 (the code differs).  For the document named P11569-11-99-40-2619, when
    none of the first twenty lines holds a reference, the engine's document
    reference is P11569-11-99-40-1: the pattern of the program stops after
    four numeric groups and the suffix -1 is added to that.  Every row carries
    this reference in REF, and none carries P11569-11-99-40-2619-1. *)
Theorem sample_name_reference (db : unicode_db) (text : str) :
  blank text = false ->
  (forall line, In line (firstn 20 (text_lines text)) ->
                search (doc_ref_pattern db) line = None) ->
  let rows := format_text_to_structure db text (Some sample_name) in
  document_reference db (Some sample_name) (text_lines text)
  = u "P11569-11-99-40-1"
  /\ rows <> []
  /\ Forall (fun r => col_REF r = u "P11569-11-99-40-1"
                      /\ col_REF r <> u "P11569-11-99-40-2619-1") rows.
Proof.
  intros B H rows.
  assert (E : document_reference db (Some sample_name) (text_lines text)
              = u "P11569-11-99-40-1").
  { unfold document_reference.
    rewrite doc_ref_in_lines_none by exact H.
    apply doc_ref_of_sample_name. }
  split; [exact E|split; [apply rows_nonempty, B|]].
  eapply Forall_impl; [|apply rows_share_location_and_reference].
  intros r [_ Hr]; cbv beta in Hr; rewrite E in Hr.
  split; [exact Hr|rewrite Hr; vm_compute; discriminate].
Qed.

Lemma sample_name_reference_witness :
  let text := u "H2S gas detector, range 0 to 50 ppm" in
  blank text = false
  /\ Forall (fun r => col_REF r = u "P11569-11-99-40-1"
                      /\ col_REF r <> u "P11569-11-99-40-2619-1")
       (format_text_to_structure ascii_db text (Some sample_name)).
Proof.
  split; [reflexivity|].
  apply (sample_name_reference ascii_db
           (u "H2S gas detector, range 0 to 50 ppm")).
  - reflexivity.
  - intros line [<-|[]]; vm_compute; reflexivity.
Defined.

(** The location loop: the last line with a qualifying match decides. *)
Lemma scan_locations_last (db : unicode_db) (before after : list str)
    (line m default : str) :
  line_location (location_patterns db) line = Some m ->
  (forall l, In l after ->
             line_location (location_patterns db) l = None) ->
  scan_locations db (before ++ line :: after) default = m.
Proof.
  intros Hm Hafter; revert default.
  induction before as [|b before IH]; intros default.
  - cbn [app scan_locations]; rewrite Hm; clear Hm.
    revert m; induction after as [|a after IHa]; intros m; [reflexivity|].
    cbn [scan_locations]; rewrite (Hafter a) by (left; reflexivity).
    apply IHa; intros l Hl; apply Hafter; right; exact Hl.
  - cbn [app scan_locations]; apply IH.
Qed.

(** C2 (the code differs).  The [break] of the location search leaves the
    loop over the patterns only, so the loop over the lines goes on: the
    functional location of every row is the match of the last line that has
    one longer than 8 characters, whatever earlier lines matched. *)
Theorem functional_location_is_last_match (db : unicode_db) (text : str)
    (pdf_name : option str) (before after : list str) (line m : str) :
  blank text = false ->
  text_lines text = before ++ line :: after ->
  line_location (location_patterns db) line = Some m ->
  (forall l, In l after ->
             line_location (location_patterns db) l = None) ->
  let rows := format_text_to_structure db text pdf_name in
  rows <> [] /\ Forall (fun r => col_Field r = m) rows.
Proof.
  intros B Hl Hm Hafter rows.
  split; [apply rows_nonempty, B|].
  eapply Forall_impl; [|apply rows_share_location_and_reference].
  intros r [Hr _]; cbv beta in Hr; rewrite Hr.
  unfold find_functional_location; rewrite Hl.
  apply scan_locations_last; assumption.
Qed.

Lemma functional_location_is_last_match_witness :
  let text := u "AB-1234567" ++ [10] ++ u "CD-7654321" in
  text_lines text = [u "AB-1234567"; u "CD-7654321"]
  /\ line_location (location_patterns ascii_db) (u "AB-1234567")
     = Some (u "AB-1234567")
  /\ Forall (fun r => col_Field r = u "CD-7654321")
       (format_text_to_structure ascii_db text None).
Proof.
  split; [reflexivity|split; [vm_compute; reflexivity|]].
  apply (@functional_location_is_last_match ascii_db
           (u "AB-1234567" ++ [10] ++ u "CD-7654321") None
           [u "AB-1234567"] [] (u "CD-7654321") (u "CD-7654321")).
  - reflexivity.
  - reflexivity.
  - vm_compute; reflexivity.
  - intros l [].
Defined.

(** Both branches of the rule are live: an empty value is skipped at counter
    3 and emitted at counter 4. *)
Example empty_value_at_3_and_4 :
  let blank_attr n : attribute := (n, u "", u "d", u "") in
  let full_attr n : attribute := (n, u "v", u "d", u "") in
  map (fun r => (col_KLART r, col_POSNUMMER r))
    (fst (emit_template (u "loc") (u "ref")
            [full_attr (u "A"); full_attr (u "B"); blank_attr (u "C");
             full_attr (u "D"); blank_attr (u "E")]
            ([], 1%Z)))
  = [(1%Z, u "A"); (2%Z, u "B"); (3%Z, u "D"); (4%Z, u "E")].
Proof. reflexivity. Qed.

(** C4.  At any point of the template loop, with the counter at [pc]: the
    attribute is skipped (state unchanged: no row, same counter) exactly when
    its value is empty and [pc] is a multiple of 3; otherwise exactly one row
    is appended, numbered [pc], and the counter advances by one. *)
Theorem template_skip_rule (functional_location full_doc_ref : str)
    (done : list attribute) (st : emit_state)
    (attr_name attr_value description uom : str) :
  let before := emit_template functional_location full_doc_ref done st in
  let after :=
    emit_template functional_location full_doc_ref
      (done ++ [(attr_name, attr_value, description, uom)]) st in
  let data := fst before in
  let pc := snd before in
  (after = before <-> attr_value = [] /\ (pc mod 3 = 0)%Z)
  /\ (after = before
      \/ after = (data ++ [mk_row functional_location pc attr_name attr_value
                             description uom full_doc_ref],
                  (pc + 1)%Z)).
Proof.
  intros before after data pc.
  assert (E : after
              = emit_attribute functional_location full_doc_ref before
                  (attr_name, attr_value, description, uom)).
  { unfold after, before, emit_template; rewrite fold_left_app; reflexivity. }
  rewrite E; unfold emit_attribute, skips.
  destruct before as [d p] eqn:Eb; simpl in data, pc; subst data pc.
  destruct attr_value as [|c v].
  - destruct (Z.eqb_spec (p mod 3) 0) as [H|H].
    + split; [split; [intros _; split; [reflexivity|exact H]|reflexivity]|].
      left; reflexivity.
    + split; [|right; reflexivity].
      split; [intros H'; inversion H'; lia|intros [_ H']; contradiction].
  - split; [|right; reflexivity].
    split; [intros H'; inversion H'; lia|intros [H' _]; discriminate].
Qed.

Lemma seq_strongly_sorted (n a : nat) :
  StronglySorted Z.lt (map Z.of_nat (seq a n)).
Proof.
  revert a; induction n as [|n IH]; intros a; simpl; constructor.
  - apply IH.
  - apply Forall_forall; intros z Hz.
    apply in_map_iff in Hz; destruct Hz as [k [<- Hk]].
    apply in_seq in Hk; lia.
Qed.

(** C5.  The position numbers of the returned rows are 1, 2, 3, ... in
    emission order, across the template loop and the line loop: the i-th row
    carries i.  Hence they increase strictly and none repeats. *)
Theorem positions_sequential (db : unicode_db) (text : str)
    (pdf_name : option str) :
  let rows := format_text_to_structure db text pdf_name in
  map col_KLART rows = map Z.of_nat (seq 1 (length rows))
  /\ StronglySorted Z.lt (map col_KLART rows)
  /\ NoDup (map col_KLART rows).
Proof.
  intros rows.
  assert (E : map col_KLART rows = map Z.of_nat (seq 1 (length rows))).
  { destruct (blank text) eqn:B.
    - unfold rows; rewrite format_blank by exact B; reflexivity.
    - destruct (format_numbered db text pdf_name B) as [pc (_ & H & _)].
      exact H. }
  split; [exact E|rewrite E; split].
  - apply seq_strongly_sorted.
  - apply Injective_map_NoDup; [intros x y; apply Nat2Z.inj|].
    apply seq_NoDup.
Qed.

Lemma firstn_rows_of_template (db : unicode_db) (text : str)
    (pdf_name : option str) :
  blank text = false ->
  map attribute_of (firstn 15 (format_text_to_structure db text pdf_name))
  = equipment_attributes.
Proof.
  intros B; unfold format_text_to_structure; rewrite B.
  set (fl := find_functional_location _ _).
  set (ref := document_reference _ _ _).
  rewrite emit_equipment_attributes.
  match goal with
  | |- context [scan_lines _ _ _ _ (?t, _)] => set (template := t)
  end.
  assert (P : forall lines st,
             exists extra,
               fst (scan_lines db fl ref lines st) = fst st ++ extra).
  { induction lines as [|l lines IH]; intros st.
    - exists []; rewrite app_nil_r; reflexivity.
    - destruct (IH (scan_line db fl ref st l)) as [extra E].
      unfold scan_lines in *; cbn [fold_left]; rewrite E.
      destruct (scan_line_round db fl ref st l) as [|data pc n v d m].
      + exists extra; reflexivity.
      + exists (mk_row fl pc n v d m ref :: extra).
        cbn [fst]; rewrite <- app_assoc; reflexivity. }
  destruct (P (text_lines text) (template, 16%Z)) as [extra ->].
  cbn [fst]; rewrite firstn_app.
  replace (15 - length template)%nat with O by reflexivity.
  rewrite firstn_O, app_nil_r; reflexivity.
Qed.

(** C9.  A text that is not blank yields at least fifteen rows, and the
    first fifteen are the entries of the fixed template in order: ENVIRONT,
    the only entry with an empty value, meets the counter at 5.  So in
    [process_pdf_to_excel], once a non-blank text is selected, neither the
    sample fallback nor the error after it is reached: the rows of the text
    go to the writer, and the call returns their number or what the writer
    raised. *)
Theorem template_always_emitted (db : unicode_db) (text : str)
    (pdf_name : option str) :
  blank text = false ->
  let rows := format_text_to_structure db text pdf_name in
  (15 <= length rows)%nat
  /\ map attribute_of (firstn 15 rows) = equipment_attributes
  /\ skips (u "ENVIRONT", u "", u "Environment", u "") 5 = false
  /\ forall (write_to_excel : list row -> result unit) (pdf : pdf_path)
            (use_ocr : bool),
       os_path_exists pdf = true ->
       select_text db pdf use_ocr = Return text ->
       pdf_name = Some (path_stem pdf) ->
       structure_or_sample db text (path_stem pdf) = rows
       /\ process_pdf_to_excel db write_to_excel pdf use_ocr
          = (_ <- write_to_excel rows ;; Return (Z.of_nat (length rows))).
Proof.
  intros B rows; subst rows.
  pose proof (format_at_least_15 db text pdf_name B) as L.
  split; [exact L|].
  split; [apply firstn_rows_of_template, B|].
  split; [reflexivity|].
  intros write_to_excel pdf use_ocr Hex Hsel Hname.
  subst pdf_name.
  set (rows := format_text_to_structure db text (Some (path_stem pdf))) in *.
  assert (S : structure_or_sample db text (path_stem pdf) = rows).
  { unfold structure_or_sample; fold rows.
    destruct rows; [simpl in L; lia|reflexivity]. }
  split; [exact S|].
  unfold process_pdf_to_excel.
  rewrite Hex, Hsel; cbn [negb bind]; rewrite B, S.
  destruct rows; [simpl in L; lia|reflexivity].
Qed.

Lemma template_always_emitted_witness :
  let pdf := {| path_str := u "example.pdf";
                os_path_exists := true;
                path_stem := u "example";
                extract_text_from_pdf := Return (u "");
                ocr_pdf := Return (u "H2S") |} in
  (15 <= length (format_text_to_structure ascii_db (u "H2S")
                   (Some (u "example"))))%nat
  /\ process_pdf_to_excel ascii_db always_writes pdf false = Return 16%Z.
Proof.
  pose proof (@template_always_emitted ascii_db (u "H2S")
                (Some (u "example")) eq_refl) as (L & _ & _ & P).
  split; [exact L|].
  destruct (P always_writes
              {| path_str := u "example.pdf";
                 os_path_exists := true;
                 path_stem := u "example";
                 extract_text_from_pdf := Return (u "");
                 ocr_pdf := Return (u "H2S") |}
              false eq_refl eq_refl eq_refl) as [_ ->].
  reflexivity.
Defined.


(** The log of a run tells the time of the run; its rows do not. *)
Example structuring_run_log :
  let at_time t :=
    {| supported_formats := [u ".pdf"]; log_records := [];
       random_state := 7; clock := t |} in
  map (fun t =>
         log_records
           (snd (format_text_to_structure_run ascii_db (u "H2S") None
                   (at_time t))))
    [100; 200]%Z
  = [[(100%Z, INFO, u "Structured 16 attribute rows")];
     [(200%Z, INFO, u "Structured 16 attribute rows")]]
  /\ snd (format_text_to_structure_run ascii_db (u " ") None (at_time 5%Z))
     = {| supported_formats := [u ".pdf"];
          log_records := [(5%Z, WARNING, u "No text to process")];
          random_state := 7; clock := 5 |}.
Proof. split; vm_compute; reflexivity. Qed.

Example str_of_int_values :
  map str_of_int [0; 7; 15; 120; -3]%Z
  = [u "0"; u "7"; u "15"; u "120"; u "-3"].
Proof. reflexivity. Qed.

(* ================================================================= *)
(** ** The quality classifier *)

Lemma Qltb_lt (x y : Q) : Qltb x y = true <-> (x < y)%Q.
Proof.
  unfold Qltb; rewrite negb_true_iff, <- not_true_iff_false, Qle_bool_iff.
  split; [apply Qnot_le_lt|apply Qlt_not_le].
Qed.

Lemma len_lstrip_le (s : str) : (length (lstrip s) <= length s)%nat.
Proof.
  destruct (lstrip_split s) as [p [E _]].
  rewrite E at 2; rewrite length_app; lia.
Qed.

Lemma len_strip_le (s : str) : (len (strip s) <= len s)%Z.
Proof.
  unfold len, strip, rstrip; apply Nat2Z.inj_le.
  rewrite length_rev.
  etransitivity; [apply len_lstrip_le|].
  rewrite length_rev; apply len_lstrip_le.
Qed.

Lemma count_char_occ (c : char) (s : str) :
  count (N.eqb c) s = Z.of_nat (count_occ N.eq_dec s c).
Proof.
  unfold count; f_equal.
  induction s as [|x s IH]; [reflexivity|].
  cbn [filter count_occ].
  destruct (N.eq_dec x c) as [->|D].
  - rewrite N.eqb_refl; cbn [length]; rewrite IH; reflexivity.
  - destruct (N.eqb_spec c x) as [E|_]; [congruence|exact IH].
Qed.

Lemma problem_count_occ (text : str) :
  problem_count text
  = Z.of_nat (count_occ N.eq_dec text 65533 + count_occ N.eq_dec text 92
              + count_occ N.eq_dec text 124).
Proof.
  unfold problem_count, replacement_char, backslash, vertical_bar.
  rewrite !count_char_occ; lia.
Qed.

(** C6.  The classifier answers low quality exactly when the trimmed text
    has fewer than 50 characters, or fewer than 30% of all characters are
    alphabetic, or the occurrences of the unknown-glyph marker U+FFFD, of the
    backslash and of the vertical bar together exceed 5% of all characters.
    Any text of 10 characters is low quality; a text of 1000 characters with
    800 alphabetic ones and none of the three problem characters is not. *)
Theorem low_quality_rules (db : unicode_db) (text : str) :
  let alphabetic := Z.of_nat (length (filter (isalpha db) text)) in
  let garbled :=
    Z.of_nat (count_occ N.eq_dec text 65533 + count_occ N.eq_dec text 92
              + count_occ N.eq_dec text 124) in
  (_is_low_quality_extraction db text = true <->
     (len (strip text) < 50)%Z
     \/ (QZ alphabetic / QZ (len text) < 0.3)%Q
     \/ (QZ (len text) * 0.05 < QZ garbled)%Q)
  /\ (len text = 10%Z -> _is_low_quality_extraction db text = true)
  /\ (len text = 1000%Z -> alphabetic = 800%Z -> garbled = 0%Z ->
      _is_low_quality_extraction db text = false).
Proof.
  intros alphabetic garbled.
  assert (EA : alpha_count db text = alphabetic) by reflexivity.
  assert (EG : problem_count text = garbled) by apply problem_count_occ.
  clearbody alphabetic garbled.
  split; [|split].
  - unfold _is_low_quality_extraction; rewrite EA, EG.
    destruct (Z.ltb_spec (len (strip text)) 50) as [H|H].
    { split; [intros _; left; exact H|reflexivity]. }
    assert (T : (0 <? len text)%Z = true).
    { apply Z.ltb_lt; pose proof (len_strip_le text); lia. }
    rewrite T; cbn [andb].
    destruct (Qltb (QZ alphabetic / QZ (len text)) 0.3) eqn:A.
    { split; [intros _; right; left; apply Qltb_lt, A|reflexivity]. }
    destruct (Qltb (QZ (len text) * 0.05) (QZ garbled)) eqn:P.
    { split; [intros _; right; right; apply Qltb_lt, P|reflexivity]. }
    split; [discriminate|].
    intros [H'|[H'|H']]; [lia| |]; apply Qltb_lt in H'; congruence.
  - intros L; unfold _is_low_quality_extraction.
    destruct (Z.ltb_spec (len (strip text)) 50) as [H|H]; [reflexivity|].
    pose proof (len_strip_le text); lia.
  - intros L A P; unfold _is_low_quality_extraction.
    destruct (Z.ltb_spec (len (strip text)) 50) as [H|H].
    { exfalso.
      pose proof (count_le_len (isalpha db) (strip text)) as C.
      rewrite (@count_strip (isalpha db) (@isalpha_not_space db)) in C.
      unfold alpha_count in EA; lia. }
    rewrite EA, EG, L, A, P; reflexivity.
Qed.

Lemma low_quality_rules_witness :
  _is_low_quality_extraction ascii_db (u "0123456789") = true
  /\ _is_low_quality_extraction ascii_db letters_and_digits = false.
Proof.
  split.
  - apply (low_quality_rules ascii_db (u "0123456789")); reflexivity.
  - apply (low_quality_rules ascii_db letters_and_digits);
      vm_compute; reflexivity.
Defined.

(** The three problem characters are counted one by one; anything else,
    the forward slash or a bracket say, is not. *)
Example problem_count_values :
  map problem_count [u "a|b\c"; [65533; 65533]; u "/[]{}"; u "||||"]
  = [2; 2; 0; 4]%Z.
Proof. reflexivity. Qed.

(* ================================================================= *)
(** ** The strategy selection *)

Lemma ocr_improves_spec (text ocr_text : str) :
  ocr_improves text ocr_text = true
  <-> (3 * len (strip text) < 2 * len (strip ocr_text))%Z.
Proof.
  unfold ocr_improves; rewrite Qltb_lt.
  unfold Qlt, QZ, inject_Z, Qmult; simpl Qnum; simpl Qden.
  lia.
Qed.

Lemma keeps_ocr_spec (text ocr_text : str) :
  keeps_ocr text ocr_text = true
  <-> blank ocr_text = false
      /\ (blank text = true
          \/ (3 * len (strip text) < 2 * len (strip ocr_text))%Z).
Proof.
  unfold keeps_ocr.
  rewrite andb_true_iff, negb_true_iff, orb_true_iff, ocr_improves_spec.
  reflexivity.
Qed.

Lemma extract_text_stripped (reader : option (list Extractors.page)) :
  strip (Extractors.extract_text_from_pdf reader)
  = Extractors.extract_text_from_pdf reader.
Proof.
  destruct reader as [pages|]; [apply strip_idempotent|reflexivity].
Qed.

Lemma ocr_stripped (images : option (list Extractors.page_image)) :
  strip (Extractors.ocr_pdf images) = Extractors.ocr_pdf images.
Proof.
  destruct images as [imgs|]; [|reflexivity].
  unfold Extractors.ocr_pdf.
  destruct (fold_left _ _ _) as [text [|n]];
    [reflexivity|apply strip_idempotent].
Qed.

(** C3 as stated fails in the batch orchestrator: when OCR finds nothing,
    the direct text is kept under the method failed, not text_extraction. *)
Lemma selector_method_counterexample :
  passes_gate ascii_db 100 short_text = false
  /\ keeps_ocr short_text [] = false
  /\ select_text_multi ascii_db short_pdf_without_ocr false
     = Return (short_text, failed)
  /\ select_text_multi ascii_db short_pdf_without_ocr false
     <> Return (short_text, text_extraction).
Proof.
  repeat split; try (vm_compute; reflexivity).
  vm_compute; discriminate.
Qed.

(** C3 (amended).  In automatic mode, when the direct text fails the gate
    and OCR is tried, both orchestrators keep the OCR text exactly when it is
    not empty and the direct text was empty or the trimmed OCR text is more
    than 1.5 times as long as the trimmed direct text; otherwise they keep
    the direct text.  The batch orchestrator names the method ocr_fallback
    for the OCR text, and for the direct text text_extraction when OCR gave
    some text and failed when it gave none.  With 40 and 45 trimmed
    characters the direct text is kept, as text_extraction.  (Both texts are
    as the extraction methods return them: already trimmed.) *)
Theorem selector_keeps_ocr (db : unicode_db) (pdf : pdf_path)
    (text ocr_text : str) :
  extract_text_from_pdf pdf = Return text ->
  ocr_pdf pdf = Return ocr_text ->
  strip text = text ->
  strip ocr_text = ocr_text ->
  (passes_gate db 50 text = false ->
   select_text db pdf false
   = Return (if keeps_ocr text ocr_text then ocr_text else text))
  /\ (passes_gate db 100 text = false ->
      select_text_multi db pdf false
      = Return (if keeps_ocr text ocr_text then (ocr_text, ocr_fallback)
                else (text, if blank ocr_text then failed
                            else text_extraction)))
  /\ ((len (strip text) = 40)%Z -> (len (strip ocr_text) = 45)%Z ->
      select_text db pdf false = Return text
      /\ select_text_multi db pdf false = Return (text, text_extraction)).
Proof.
  intros Hd Ho Sd So.
  assert (Single : passes_gate db 50 text = false ->
                   select_text db pdf false
                   = Return (if keeps_ocr text ocr_text then ocr_text
                             else text)).
  { unfold passes_gate, select_text, keeps_ocr; rewrite Hd; cbn [bind].
    destruct (blank text) eqn:Bt; cbn [negb andb orb].
    - intros _; rewrite Ho.
      destruct (blank ocr_text) eqn:Bo; cbn [negb andb]; [|reflexivity].
      rewrite (blank_stripped Bt Sd), (blank_stripped Bo So).
      reflexivity.
    - intros ->; rewrite Ho; cbn [bind].
      destruct (negb (blank ocr_text) && ocr_improves text ocr_text);
        reflexivity. }
  assert (Multi : passes_gate db 100 text = false ->
                  select_text_multi db pdf false
                  = Return (if keeps_ocr text ocr_text
                            then (ocr_text, ocr_fallback)
                            else (text, if blank ocr_text then failed
                                        else text_extraction))).
  { unfold passes_gate, select_text_multi, keeps_ocr; rewrite Hd; cbn [bind].
    intros ->; rewrite Ho; cbn [bind].
    destruct (blank ocr_text); cbn [negb andb]; [reflexivity|].
    destruct (blank text || ocr_improves text ocr_text); reflexivity. }
  split; [exact Single|split; [exact Multi|]].
  intros L40 L45.
  assert (Bt : blank text = false) by (apply blank_len; lia).
  assert (Bo : blank ocr_text = false) by (apply blank_len; lia).
  assert (I : ocr_improves text ocr_text = false).
  { apply not_true_iff_false; rewrite ocr_improves_spec; lia. }
  assert (K : keeps_ocr text ocr_text = false).
  { unfold keeps_ocr; rewrite Bt, Bo, I; reflexivity. }
  assert (G : forall t, (40 <= t)%Z -> passes_gate db t text = false).
  { intros t Ht; unfold passes_gate; rewrite Bt, L40; cbn [negb andb].
    destruct (Z.ltb_spec t 40); [lia|reflexivity]. }
  rewrite Single, Multi, K, ?Bo by (apply G; lia).
  split; reflexivity.
Qed.

Lemma selector_keeps_ocr_witness :
  select_text ascii_db pdf_40_45 false = Return text_of_40
  /\ select_text_multi ascii_db pdf_40_45 false
     = Return (text_of_40, text_extraction).
Proof.
  apply (@selector_keeps_ocr ascii_db pdf_40_45 text_of_40 text_of_45);
    reflexivity.
Defined.

(* ================================================================= *)
(** ** The orchestrators *)

Section BatchFacts.
Variable db : unicode_db.
Variable use_ocr : bool.

Lemma sample_rows (pdf_name : str) :
  _generate_sample_attributes db pdf_name
  = map (fun '(pc, (name, value, description, uom)) =>
           mk_row (u "11-18-XTGD-5404") pc name value description uom
             (doc_ref_of_name db pdf_name))
      (combine (map Z.of_nat (seq 1 15)) sample_attributes).
Proof. reflexivity. Qed.

Lemma sample_length (pdf_name : str) :
  length (_generate_sample_attributes db pdf_name) = 15%nat.
Proof. rewrite sample_rows; reflexivity. Qed.

Lemma sample_nonempty (pdf_name : str) :
  nonempty (_generate_sample_attributes db pdf_name) = true.
Proof. rewrite sample_rows; reflexivity. Qed.

(** A round reads neither accumulator: it appends its contribution. *)
Lemma batch_round_appends (st : batch_state) (pdf : pdf_path) :
  batch_round db use_ocr st pdf
  = (fst st ++ fst (contribution db use_ocr pdf),
     snd st ++ snd (contribution db use_ocr pdf)).
Proof.
  destruct st as [all summ]; unfold contribution, batch_round.
  destruct (negb (os_path_exists pdf)).
  - cbn [fst snd]; rewrite !app_nil_r; reflexivity.
  - destruct (try_one db pdf use_ocr) as [[data entries]|e].
    + reflexivity.
    + rewrite sample_nonempty; reflexivity.
Qed.

Lemma fold_batch_round (pdfs : list pdf_path) (st : batch_state) :
  fold_left (batch_round db use_ocr) pdfs st
  = (fst st ++ flat_map (fun pdf => fst (contribution db use_ocr pdf)) pdfs,
     snd st ++ flat_map (fun pdf => snd (contribution db use_ocr pdf)) pdfs).
Proof.
  revert st; induction pdfs as [|pdf pdfs IH]; intros st.
  - destruct st; cbn [fold_left flat_map fst snd]; rewrite !app_nil_r.
    reflexivity.
  - cbn [fold_left flat_map]; rewrite IH, batch_round_appends.
    cbn [fst snd]; rewrite <- !app_assoc; reflexivity.
Qed.

(** The loop is the concatenation of the documents' contributions, in
    order: no document changes what another one adds. *)
Lemma batch_loop_contributions (pdfs : list pdf_path) :
  batch_loop db pdfs use_ocr
  = (flat_map (fun pdf => fst (contribution db use_ocr pdf)) pdfs,
     flat_map (fun pdf => snd (contribution db use_ocr pdf)) pdfs).
Proof. unfold batch_loop; rewrite fold_batch_round; reflexivity. Qed.

Lemma contribution_missing (pdf : pdf_path) :
  os_path_exists pdf = false -> contribution db use_ocr pdf = ([], []).
Proof. intros E; unfold contribution, batch_round; rewrite E; reflexivity. Qed.

(** A raising round is caught and answered with the sample table. *)
Lemma contribution_raise (pdf : pdf_path) (e : exn) :
  os_path_exists pdf = true ->
  try_one db pdf use_ocr = Raise e ->
  contribution db use_ocr pdf
  = (_generate_sample_attributes db (path_stem pdf),
     [entry (path_stem pdf) error_with_sample (u "fallback")
        (_generate_sample_attributes db (path_stem pdf)) 0
        (Some (exn_str e))]).
Proof.
  intros E T; unfold contribution, batch_round.
  rewrite E, T, sample_nonempty; reflexivity.
Qed.

(** Both texts empty: the sample table, entered as failed_with_sample. *)
Lemma contribution_no_text (pdf : pdf_path) (text ocr_text : str) :
  os_path_exists pdf = true ->
  extract_text_from_pdf pdf = Return text -> blank text = true ->
  ocr_pdf pdf = Return ocr_text -> blank ocr_text = true ->
  contribution db use_ocr pdf
  = (_generate_sample_attributes db (path_stem pdf),
     [entry (path_stem pdf) failed_with_sample (u "fallback")
        (_generate_sample_attributes db (path_stem pdf)) 0 None]).
Proof.
  intros E Hd Bd Ho Bo; unfold contribution, batch_round, try_one.
  rewrite E; cbn [negb].
  assert (S : exists m, select_text_multi db pdf use_ocr
                        = Return (if use_ocr then ocr_text else text, m)).
  { unfold select_text_multi; destruct use_ocr.
    - rewrite Ho; eexists; reflexivity.
    - rewrite Hd; cbn [bind]; rewrite Bd; cbn [negb andb].
      rewrite Ho; cbn [bind]; rewrite Bo; eexists; reflexivity. }
  destruct S as [m ->]; cbn [bind].
  assert (B : blank (if use_ocr then ocr_text else text) = true)
    by (destruct use_ocr; assumption).
  rewrite B; cbn [negb]; rewrite sample_nonempty; reflexivity.
Qed.

(** Every file that exists adds rows. *)
Lemma contribution_nonempty (pdf : pdf_path) :
  os_path_exists pdf = true -> fst (contribution db use_ocr pdf) <> [].
Proof.
  intros E; unfold contribution, batch_round; rewrite E; cbn [negb].
  assert (N : forall name, _generate_sample_attributes db name <> []).
  { intros name H; pose proof (sample_nonempty name) as S.
    rewrite H in S; discriminate. }
  destruct (try_one db pdf use_ocr) as [[data entries]|e] eqn:T.
  - cbn [fst app]; unfold try_one in T.
    destruct (select_text_multi db pdf use_ocr) as [[text m]|e];
      [|discriminate].
    cbn [bind] in T.
    destruct (blank text) eqn:B; cbn [negb] in T.
    + rewrite sample_nonempty in T; inversion T; apply N.
    + destruct (format_text_to_structure db text (Some (path_stem pdf)))
        eqn:F; [exfalso; exact (@rows_nonempty db text _ B F)|].
      cbn [nonempty] in T; inversion T; discriminate.
  - rewrite sample_nonempty; cbn [fst app]; apply N.
Qed.

Lemma batch_rows_empty (pdfs : list pdf_path) :
  fst (batch_loop db pdfs use_ocr) = []
  <-> forallb (fun pdf => negb (os_path_exists pdf)) pdfs = true.
Proof.
  rewrite batch_loop_contributions; cbn [fst].
  induction pdfs as [|pdf pdfs IH]; cbn [flat_map forallb].
  - split; reflexivity.
  - rewrite andb_true_iff, <- IH, negb_true_iff; split.
    + intros H; apply app_eq_nil in H; destruct H as [H1 H2].
      split; [|exact H2].
      destruct (os_path_exists pdf) eqn:E; [|reflexivity].
      exfalso; exact (contribution_nonempty pdf E H1).
    + intros [E ->]; rewrite (contribution_missing pdf E); reflexivity.
Qed.

End BatchFacts.

Lemma batch_loop_app (db : unicode_db) (use_ocr : bool)
    (before after : list pdf_path) :
  batch_loop db (before ++ after) use_ocr
  = (fst (batch_loop db before use_ocr) ++ fst (batch_loop db after use_ocr),
     snd (batch_loop db before use_ocr) ++ snd (batch_loop db after use_ocr)).
Proof.
  rewrite !batch_loop_contributions, !flat_map_app; reflexivity.
Qed.

Lemma batch_loop_cons (db : unicode_db) (use_ocr : bool) (pdf : pdf_path)
    (after : list pdf_path) :
  batch_loop db (pdf :: after) use_ocr
  = (fst (contribution db use_ocr pdf) ++ fst (batch_loop db after use_ocr),
     snd (contribution db use_ocr pdf) ++ snd (batch_loop db after use_ocr)).
Proof. rewrite !batch_loop_contributions; reflexivity. Qed.

Lemma process_multiple_unfold (db : unicode_db)
    (write_to_excel : list row -> result unit) (pdfs : list pdf_path)
    (use_ocr : bool) :
  process_multiple_pdfs_to_excel db write_to_excel pdfs use_ocr
  = match fst (batch_loop db pdfs use_ocr) with
    | [] => Raise (ValueError msg_no_data_any)
    | all =>
        _ <- write_to_excel all ;; Return (Z.of_nat (length all))
    end.
Proof.
  unfold process_multiple_pdfs_to_excel.
  destruct (batch_loop db pdfs use_ocr) as [[|r all] summ]; reflexivity.
Qed.

(** C7.  A document whose direct extraction and OCR both give empty text:
    [process_pdf_to_excel] raises (the no-text ValueError when the file
    exists); [process_multiple_pdfs_to_excel], for a file that exists, adds
    the fifteen sample rows and one summary entry with status
    failed_with_sample at the document's place, goes on with the documents
    after it, and does not raise its own error: the rows go to the writer. *)
Theorem no_text_document (db : unicode_db)
    (write_to_excel : list row -> result unit) (pdf : pdf_path)
    (text ocr_text : str) (before after : list pdf_path) (use_ocr : bool) :
  extract_text_from_pdf pdf = Return text -> blank text = true ->
  ocr_pdf pdf = Return ocr_text -> blank ocr_text = true ->
  let sample := _generate_sample_attributes db (path_stem pdf) in
  let e := entry (path_stem pdf) failed_with_sample (u "fallback") sample 0
             None in
  let pdfs := before ++ pdf :: after in
  (exists err, process_pdf_to_excel db write_to_excel pdf use_ocr = Raise err)
  /\ (os_path_exists pdf = true ->
      process_pdf_to_excel db write_to_excel pdf use_ocr
      = Raise (ValueError (msg_no_text use_ocr))
      /\ length sample = 15%nat
      /\ batch_loop db pdfs use_ocr
         = (fst (batch_loop db before use_ocr) ++ sample
              ++ fst (batch_loop db after use_ocr),
            snd (batch_loop db before use_ocr) ++ [e]
              ++ snd (batch_loop db after use_ocr))
      /\ In e (snd (batch_loop db pdfs use_ocr))
      /\ process_multiple_pdfs_to_excel db write_to_excel pdfs use_ocr
         = (_ <- write_to_excel (fst (batch_loop db pdfs use_ocr)) ;;
            Return (Z.of_nat (length (fst (batch_loop db pdfs use_ocr)))))).
Proof.
  intros Hd Bd Ho Bo sample e pdfs.
  assert (Sel : select_text db pdf use_ocr
                = Return (if use_ocr then ocr_text else ocr_text)).
  { unfold select_text; destruct use_ocr; [exact Ho|].
    rewrite Hd; cbn [bind]; rewrite Bd; exact Ho. }
  assert (Single : os_path_exists pdf = true ->
                   process_pdf_to_excel db write_to_excel pdf use_ocr
                   = Raise (ValueError (msg_no_text use_ocr))).
  { intros E; unfold process_pdf_to_excel; rewrite E, Sel; cbn [negb bind].
    destruct use_ocr; rewrite Bo; reflexivity. }
  split.
  { destruct (os_path_exists pdf) eqn:E.
    - eexists; apply Single; reflexivity.
    - unfold process_pdf_to_excel; rewrite E; eexists; reflexivity. }
  intros E.
  assert (L : batch_loop db pdfs use_ocr
              = (fst (batch_loop db before use_ocr) ++ sample
                   ++ fst (batch_loop db after use_ocr),
                 snd (batch_loop db before use_ocr) ++ [e]
                   ++ snd (batch_loop db after use_ocr))).
  { unfold pdfs; rewrite batch_loop_app, batch_loop_cons.
    rewrite (contribution_no_text db use_ocr pdf E Hd Bd Ho Bo).
    reflexivity. }
  split; [apply Single, E|].
  split; [apply sample_length|].
  split; [exact L|].
  split.
  { rewrite L; cbn [snd]; apply in_or_app; right; left; reflexivity. }
  rewrite process_multiple_unfold, L; cbn [fst].
  destruct (fst (batch_loop db before use_ocr) ++ sample
              ++ fst (batch_loop db after use_ocr)) eqn:A; [|reflexivity].
  apply app_eq_nil in A; destruct A as [_ A].
  apply app_eq_nil in A; destruct A as [A _].
  pose proof (sample_length db (path_stem pdf)) as S.
  fold sample in S; rewrite A in S; discriminate.
Qed.

Lemma no_text_document_witness :
  process_pdf_to_excel ascii_db always_writes empty_pdf false
  = Raise (ValueError (msg_no_text false))
  /\ map summary_status
       (snd (batch_loop ascii_db [good_pdf; empty_pdf; good_pdf] false))
     = [success; failed_with_sample; success]
  /\ process_multiple_pdfs_to_excel ascii_db always_writes
       [good_pdf; empty_pdf; good_pdf] false
     = Return 45%Z.
Proof.
  destruct (@no_text_document ascii_db always_writes empty_pdf [] []
              [good_pdf] [good_pdf] false
              eq_refl eq_refl eq_refl eq_refl) as [_ H].
  destruct (H eq_refl) as (S & _ & L & _ & M); cbn [app] in L, M.
  split; [exact S|].
  split; [rewrite L; vm_compute; reflexivity|].
  rewrite M, L; vm_compute; reflexivity.
Defined.

(** C8 as stated fails: with rows accumulated, the call still raises when
    the spreadsheet writer does. *)
Lemma batch_raises_with_rows_counterexample :
  fst (batch_loop ascii_db [good_pdf] false) <> []
  /\ process_multiple_pdfs_to_excel ascii_db disk_full [good_pdf] false
     = Raise (Exception (u "disk full")).
Proof.
  split; [vm_compute; discriminate|vm_compute; reflexivity].
Qed.

(** C8 (amended).  [process_multiple_pdfs_to_excel] raises exactly when the
    accumulated rows are empty (its own ValueError) or the spreadsheet writer
    raises (that error, passed on); with rows and a working writer it returns
    their number.  The accumulated rows and entries are the concatenation of
    what each document adds, so every document is processed whatever happened
    to the ones before it; a document whose processing raises is caught and
    adds the fifteen sample rows with an error_with_sample entry. *)
Theorem batch_error_rule (db : unicode_db)
    (write_to_excel : list row -> result unit) (pdfs : list pdf_path)
    (use_ocr : bool) :
  let all := fst (batch_loop db pdfs use_ocr) in
  let run := process_multiple_pdfs_to_excel db write_to_excel pdfs use_ocr in
  ((exists err, run = Raise err)
   <-> all = [] \/ exists err, write_to_excel all = Raise err)
  /\ (all = [] <-> run = Raise (ValueError msg_no_data_any) /\
                   forallb (fun pdf => negb (os_path_exists pdf)) pdfs = true)
  /\ (write_to_excel all = Return tt -> all <> [] ->
      run = Return (Z.of_nat (length all)))
  /\ batch_loop db pdfs use_ocr
     = (flat_map (fun pdf => fst (contribution db use_ocr pdf)) pdfs,
        flat_map (fun pdf => snd (contribution db use_ocr pdf)) pdfs)
  /\ (forall pdf err,
        os_path_exists pdf = true ->
        try_one db pdf use_ocr = Raise err ->
        length (fst (contribution db use_ocr pdf)) = 15%nat
        /\ map summary_status (snd (contribution db use_ocr pdf))
           = [error_with_sample]
        /\ map error (snd (contribution db use_ocr pdf))
           = [Some (exn_str err)]).
Proof.
  intros all run.
  assert (R : run = match all with
                    | [] => Raise (ValueError msg_no_data_any)
                    | _ => _ <- write_to_excel all ;;
                           Return (Z.of_nat (length all))
                    end).
  { unfold run, all; rewrite process_multiple_unfold.
    destruct (fst (batch_loop db pdfs use_ocr)); reflexivity. }
  split; [|split; [|split; [|split]]].
  - rewrite R; destruct all as [|r rest] eqn:A.
    + split; [intros _; left; reflexivity|intros _; eexists; reflexivity].
    + destruct (write_to_excel (r :: rest)) as [[]|err]; cbn [bind].
      * split; [intros [err H]; discriminate|].
        intros [H|[err H]]; discriminate.
      * split; [intros _; right; eexists; reflexivity|].
        intros _; eexists; reflexivity.
  - split.
    + intros A; split; [rewrite R, A; reflexivity|].
      apply (proj1 (batch_rows_empty db use_ocr pdfs)); exact A.
    + intros [_ F]; apply (proj2 (batch_rows_empty db use_ocr pdfs)), F.
  - intros W N; rewrite R; destruct all; [contradiction|].
    rewrite W; reflexivity.
  - apply batch_loop_contributions.
  - intros pdf err E T.
    rewrite (contribution_raise db use_ocr pdf E T); cbn [fst snd].
    split; [apply sample_length|split; reflexivity].
Qed.

Lemma batch_error_rule_witness :
  process_multiple_pdfs_to_excel ascii_db always_writes
    [raising_pdf; good_pdf] false
  = Return 30%Z
  /\ map summary_status
       (snd (batch_loop ascii_db [raising_pdf; good_pdf] false))
     = [error_with_sample; success].
Proof.
  destruct (@batch_error_rule ascii_db always_writes
              [raising_pdf; good_pdf] false) as (_ & _ & W & L & _).
  split.
  - rewrite W; [vm_compute; reflexivity|reflexivity|vm_compute; discriminate].
  - rewrite L; vm_compute; reflexivity.
Defined.

(* ================================================================= *)
(** * Further properties *)

(** [str.count] with occurrences that overlap, as CPython counts them. *)
Example count_sub_values :
  map (fun s => count_sub s (u "//")) [u "////"; u "///"; u "a/b"; u ""]
  = [2; 1; 0; 0]%Z.
Proof. reflexivity. Qed.

(** A page of plain text is not called scanned; bars in one character out
    of ten make it so. *)
Example typed_page_is_not_scanned :
  _is_pdf_scanned ascii_db (fun _ => false)
    (Some [Some (u "Gas detector data sheet, " ++ repeat 97 100)])
  = false
  /\ _is_pdf_scanned ascii_db (fun _ => false)
       (Some [Some (repeat 97 90 ++ repeat 124 10)])
     = true.
Proof. split; vm_compute; reflexivity. Qed.

(* ================================================================= *)
(** ** Pieces of the text *)

Lemma firstn_sub (A : Type) (n : nat) (l : list A) (x : A) :
  In x (firstn n l) -> In x l.
Proof.
  intros H; rewrite <- (firstn_skipn n l); apply in_or_app; left; exact H.
Qed.

Lemma infix_refl (s : str) : infix s s.
Proof. exists [], []; rewrite app_nil_r; reflexivity. Qed.

Lemma infix_trans (a b c : str) : infix a b -> infix b c -> infix a c.
Proof.
  intros [p1 [q1 ->]] [p2 [q2 ->]].
  exists (p2 ++ p1), (q1 ++ q2); rewrite <- !app_assoc; reflexivity.
Qed.

Lemma infix_In (a b : str) (c : char) : infix a b -> In c a -> In c b.
Proof.
  intros [p [q ->]] H; apply in_or_app; right; apply in_or_app; left; exact H.
Qed.

Lemma infix_app_l (a b pre : str) : infix a b -> infix a (pre ++ b).
Proof.
  intros [p [q ->]]; exists (pre ++ p), q; rewrite <- app_assoc; reflexivity.
Qed.

Lemma infix_cons (a b : str) (c : char) : infix a b -> infix a (c :: b).
Proof. apply (@infix_app_l a b [c]). Qed.

Lemma infix_len (a b : str) : infix a b -> (len a <= len b)%Z.
Proof.
  intros [p [q ->]]; unfold len; rewrite !length_app; lia.
Qed.

Lemma rstrip_split (s : str) :
  exists q, s = rstrip s ++ q /\ forallb isspace q = true.
Proof.
  unfold rstrip; destruct (lstrip_split (rev s)) as [p [E F]].
  exists (rev p); split.
  - rewrite <- (rev_involutive s) at 1; rewrite E at 1.
    apply rev_app_distr.
  - rewrite forallb_forall in *; intros c Hc; apply F, in_rev, Hc.
Qed.

Lemma strip_infix (s : str) : infix (strip s) s.
Proof.
  unfold strip.
  destruct (lstrip_split s) as [p [E _]].
  destruct (rstrip_split (lstrip s)) as [q [E' _]].
  exists p, q; rewrite <- E'; exact E.
Qed.

Lemma split_on_head (sep : char) (s : str) :
  match split_on sep s with
  | w :: ws => (exists post, s = w ++ post)
               /\ Forall (fun piece => infix piece s) ws
  | [] => False
  end.
Proof.
  induction s as [|c s IH]; simpl.
  - split; [exists []; reflexivity|constructor].
  - destruct (c =? sep).
    + split; [exists (c :: s); reflexivity|].
      destruct (split_on sep s) as [|w ws]; [contradiction|].
      destruct IH as [[post E] F]; constructor.
      * exists [c], post; simpl; f_equal; exact E.
      * eapply Forall_impl; [|exact F]; intros a; apply infix_cons.
    + destruct (split_on sep s) as [|w ws]; [contradiction|].
      destruct IH as [[post E] F]; split.
      * exists post; simpl; f_equal; exact E.
      * eapply Forall_impl; [|exact F]; intros a; apply infix_cons.
Qed.

Lemma split_on_infix (sep : char) (s : str) :
  Forall (fun piece => infix piece s) (split_on sep s).
Proof.
  pose proof (split_on_head sep s) as H.
  destruct (split_on sep s) as [|w ws]; [contradiction|].
  destruct H as [[post E] F]; constructor; [|exact F].
  exists [], post; exact E.
Qed.

Lemma text_lines_infix (text line : str) :
  In line (text_lines text) -> infix line text.
Proof.
  unfold text_lines; intros H.
  apply in_map_iff in H; destruct H as [piece [<- H]].
  apply filter_In in H; destruct H as [H _].
  eapply infix_trans; [apply strip_infix|].
  pose proof (split_on_infix 10 text) as F.
  rewrite Forall_forall in F; apply F, H.
Qed.

(** The tokens of [s.split()]. *)
Lemma split_ws_aux_tokens (s cur : str) :
  no_space cur = true ->
  Forall (fun t => t <> [] /\ no_space t = true /\ infix t (rev cur ++ s))
    (split_ws_aux cur s).
Proof.
  assert (R : forall d cur, no_space (d :: cur) = true ->
                rev (d :: cur) <> [] /\ no_space (rev (d :: cur)) = true).
  { intros d cur0 H; split.
    - intros E; apply (f_equal (@length char)) in E.
      rewrite length_rev in E; discriminate.
    - unfold no_space in *; rewrite forallb_forall in *.
      intros x Hx; apply H, in_rev, Hx. }
  revert cur; induction s as [|c s IH]; intros cur Hcur; simpl.
  - destruct cur as [|d cur]; constructor; [|constructor].
    destruct (R d cur Hcur) as [R1 R2].
    split; [exact R1|split; [exact R2|]].
    rewrite app_nil_r; apply infix_refl.
  - destruct (isspace c) eqn:Ec.
    + assert (T : Forall (fun t => t <> [] /\ no_space t = true
                                   /\ infix t (rev cur ++ c :: s))
                    (split_ws_aux [] s)).
      { eapply Forall_impl; [|apply (IH [] eq_refl)].
        intros t (H1 & H2 & H3); split; [exact H1|split; [exact H2|]].
        simpl in H3; apply infix_app_l, infix_cons, H3. }
      destruct cur as [|d cur]; [exact T|].
      constructor; [|exact T].
      destruct (R d cur Hcur) as [R1 R2].
      split; [exact R1|split; [exact R2|]].
      exists [], (c :: s); reflexivity.
    + assert (Hc : no_space (c :: cur) = true).
      { unfold no_space in *; simpl; rewrite Ec, Hcur; reflexivity. }
      eapply Forall_impl; [|apply (IH (c :: cur) Hc)].
      intros t (H1 & H2 & H3); split; [exact H1|split; [exact H2|]].
      simpl in H3; rewrite <- app_assoc in H3; exact H3.
Qed.

Lemma split_ws_tokens (s : str) :
  Forall (fun t => t <> [] /\ no_space t = true /\ infix t s) (split_ws s).
Proof. apply (split_ws_aux_tokens s [] eq_refl). Qed.

(* ================================================================= *)
(** ** The pattern matcher *)

(** A match ends at a suffix of the subject: the continuation is only ever
    asked about what is left of it. *)
Definition ends_in_suffix (m : matcher) : Prop :=
  forall s k out, m s k = Some out ->
                  exists pre rest, s = pre ++ rest /\ k rest = Some out.

Lemma times_suffix (m : matcher) (n : nat) :
  ends_in_suffix m -> ends_in_suffix (times m n).
Proof.
  intros Hm; induction n as [|n IH]; intros s k out H; simpl in H.
  - exists [], s; split; [reflexivity|exact H].
  - apply Hm in H; destruct H as [p1 [r1 [-> H]]].
    apply IH in H; destruct H as [p2 [r2 [-> H]]].
    exists (p1 ++ p2), r2; rewrite <- app_assoc; split; [reflexivity|exact H].
Qed.

Lemma many_suffix (p : char -> bool) (lo : nat) :
  ends_in_suffix (many p lo).
Proof.
  intros s; revert lo; induction s as [|c s IH]; intros lo k out H.
  - simpl in H; destruct lo; [|discriminate].
    exists [], []; split; [reflexivity|exact H].
  - simpl in H.
    assert (Stop : match lo with O => k (c :: s) | S _ => None end = Some out
                   -> exists pre rest, c :: s = pre ++ rest
                                       /\ k rest = Some out).
    { destruct lo; [|discriminate].
      intros E; exists [], (c :: s); split; [reflexivity|exact E]. }
    destruct (p c); [|exact (Stop H)].
    destruct (many p (pred lo) s k) as [r|] eqn:M; [|exact (Stop H)].
    inversion H; subst r.
    apply IH in M; destruct M as [pre [rest [-> M]]].
    exists (c :: pre), rest; split; [reflexivity|exact M].
Qed.

Lemma rmatch_suffix (r : regex) : ends_in_suffix (rmatch r).
Proof.
  induction r as [p|r1 IH1 r2 IH2|r1 IH1|n r1 IH1|lo p]; intros s k out H.
  - simpl in H; destruct s as [|c s]; [discriminate|].
    destruct (p c); [|discriminate].
    exists [c], s; split; [reflexivity|exact H].
  - simpl in H; apply IH1 in H; destruct H as [p1 [r1' [-> H]]].
    apply IH2 in H; destruct H as [p2 [r2' [-> H]]].
    exists (p1 ++ p2), r2'; rewrite <- app_assoc; split; [reflexivity|exact H].
  - simpl in H; destruct (rmatch r1 s k) as [x|] eqn:M.
    + inversion H; subst x; apply IH1 in M; exact M.
    + exists [], s; split; [reflexivity|exact H].
  - simpl in H; exact (times_suffix n IH1 s k H).
  - simpl in H; exact (many_suffix _ _ _ _ H).
Qed.

Lemma match_here_prefix (r : regex) (s m : str) :
  match_here r s = Some m -> exists rest, s = m ++ rest.
Proof.
  unfold match_here.
  destruct (rmatch r s Some) as [rest|] eqn:M; [|discriminate].
  intros H; inversion H; subst m; clear H.
  apply rmatch_suffix in M; destruct M as [pre [rest' [-> E]]].
  inversion E; subst rest'.
  exists rest; rewrite length_app.
  replace (length pre + length rest - length rest)%nat with (length pre)
    by lia.
  rewrite firstn_app, firstn_all, Nat.sub_diag, firstn_O, app_nil_r.
  reflexivity.
Qed.

(** A search starts where an anchored match succeeds. *)
Lemma search_anchor (r : regex) (s m : str) :
  search r s = Some m ->
  exists pre tail, s = pre ++ tail /\ match_here r tail = Some m.
Proof.
  induction s as [|c s IH]; simpl.
  - destruct (match_here r []) as [x|] eqn:M; [|discriminate].
    intros H; inversion H; subst x; exists [], []; split; [reflexivity|exact M].
  - destruct (match_here r (c :: s)) as [x|] eqn:M.
    + intros H; inversion H; subst x.
      exists [], (c :: s); split; [reflexivity|exact M].
    + intros H; destruct (IH H) as [pre [tail [-> E]]].
      exists (c :: pre), tail; split; [reflexivity|exact E].
Qed.

(** [re.search] returns a piece of its subject. *)
Lemma search_infix (r : regex) (s m : str) :
  search r s = Some m -> infix m s.
Proof.
  intros H; apply search_anchor in H; destruct H as [pre [tail [-> H]]].
  apply match_here_prefix in H; destruct H as [rest ->].
  exists pre, rest; reflexivity.
Qed.

Lemma many_head (p : char -> bool) (lo : nat) (s : str)
    (k : str -> option str) (out : str) :
  many p (S lo) s k = Some out ->
  exists c s', s = c :: s' /\ p c = true.
Proof.
  destruct s as [|c s]; simpl; [discriminate|].
  destruct (p c) eqn:E; [|discriminate].
  intros _; exists c, s; split; [reflexivity|exact E].
Qed.

Lemma many_0_some (p : char -> bool) (s : str) : many p 0 s Some <> None.
Proof.
  induction s as [|d s IHs]; simpl; [discriminate|].
  destruct (p d); [|discriminate].
  destruct (many p 0 s Some); discriminate.
Qed.

(** [re.search(r'[p]+', s)] finds nothing exactly when [s] has no character
    of the class. *)
Lemma search_plus_none (p : char -> bool) (s : str) :
  search (plus p) s = None <-> forallb (fun c => negb (p c)) s = true.
Proof.
  induction s as [|c s IH]; simpl.
  - split; reflexivity.
  - unfold match_here at 1; simpl.
    destruct (p c) eqn:E; simpl.
    + pose proof (many_0_some p s) as N.
      destruct (many p 0 s Some) as [rest|]; [|contradiction].
      split; discriminate.
    + exact IH.
Qed.

(* ================================================================= *)
(** ** More on the structuring engine *)

Lemma exists_class (p : char -> bool) (s : str) :
  forallb (fun c => negb (p c)) s = false -> exists c, In c s /\ p c = true.
Proof.
  induction s as [|c s IH]; simpl; [discriminate|].
  destruct (p c) eqn:E; simpl.
  - intros _; exists c; split; [left; reflexivity|exact E].
  - intros H; destruct (IH H) as [d [Hd Pd]].
    exists d; split; [right; exact Hd|exact Pd].
Qed.

Lemma search_plus_some (p : char -> bool) (s m : str) :
  search (plus p) s = Some m -> exists c, In c s /\ p c = true.
Proof.
  intros H; apply exists_class.
  destruct (forallb (fun c => negb (p c)) s) eqn:F; [|reflexivity].
  apply search_plus_none in F; congruence.
Qed.

Lemma first_numeric_some (db : unicode_db) (parts : list str) (i j : nat)
    (part : str) :
  first_numeric db i parts = Some (j, part) ->
  In part parts /\ exists c, In c part /\ is_decimal db c = true.
Proof.
  revert i; induction parts as [|p parts IH]; intros i; simpl; [discriminate|].
  destruct (search (plus (digit db)) p) as [m|] eqn:S.
  - intros H; inversion H; subst part j.
    split; [left; reflexivity|exact (search_plus_some _ _ S)].
  - intros H; destruct (IH _ H) as [H1 H2]; split; [right; exact H1|exact H2].
Qed.

Lemma first_numeric_none (db : unicode_db) (parts : list str) (i : nat) :
  Forall (fun part => forall c, In c part -> is_decimal db c = false) parts ->
  first_numeric db i parts = None.
Proof.
  revert i; induction parts as [|p parts IH]; intros i H; simpl;
    [reflexivity|].
  inversion H as [|? ? Hp Hparts]; subst.
  replace (search (plus (digit db)) p) with (@None str); [apply IH, Hparts|].
  symmetry; apply search_plus_none, forallb_forall.
  intros c Hc; unfold digit; rewrite (Hp c Hc); reflexivity.
Qed.

Lemma find_uom_in (db : unicode_db) (line : str) :
  In (find_uom db line) (u "" :: units).
Proof.
  unfold find_uom.
  destruct (find _ units) as [unit|] eqn:F; [|left; reflexivity].
  right; exact (proj1 (find_some _ _ F)).
Qed.

Lemma describe_short (parts : list str) (i : nat) :
  (len (strip (describe parts i)) <= 50)%Z.
Proof.
  etransitivity; [apply len_strip_le|].
  unfold describe, len; rewrite length_firstn; lia.
Qed.

Section ScanFacts.
Variable db : unicode_db.
Variables fl ref : str.

(** One round of the line loop: nothing, or one row of the promised shape
    taken from the line. *)
Lemma scan_line_cases (st : emit_state) (line : str) :
  scan_line db fl ref st line = st
  \/ exists r, scan_line db fl ref st line = (fst st ++ [r], (snd st + 1)%Z)
               /\ scanned_shape db line r.
Proof.
  destruct st as [data pc]; unfold scan_line.
  destruct (existsb _ skip_patterns); [left; reflexivity|].
  destruct (existsb _ keywords); [|left; reflexivity].
  destruct (first_numeric db 0 (split_ws line)) as [[i part]|] eqn:F;
    [|left; reflexivity].
  right; eexists; split; [reflexivity|].
  destruct (first_numeric_some _ _ _ F) as [Hin Hdig].
  pose proof (split_ws_tokens line) as T.
  rewrite Forall_forall in T; destruct (T part Hin) as (T1 & T2 & T3).
  unfold scanned_shape, mk_row; cbn [col_POSNUMMER col_KLART col_ATNAM
                                      col_ATWRT col_UoM].
  repeat split; try assumption.
  - apply describe_short.
  - apply strip_idempotent.
  - apply find_uom_in.
Qed.

Lemma scan_lines_extra (lines : list str) (st : emit_state) :
  exists extra,
    fst (scan_lines db fl ref lines st) = fst st ++ extra
    /\ (length extra <= length lines)%nat
    /\ Forall (fun r => exists line, In line lines /\ scanned_shape db line r)
         extra.
Proof.
  unfold scan_lines; revert st; induction lines as [|l lines IH]; intros st.
  - exists []; rewrite app_nil_r; repeat split; [simpl; lia|constructor].
  - cbn [fold_left].
    assert (W : forall extra,
              Forall (fun r => exists line, In line lines
                                            /\ scanned_shape db line r) extra ->
              Forall (fun r => exists line, In line (l :: lines)
                                            /\ scanned_shape db line r) extra).
    { intros extra F; eapply Forall_impl; [|exact F].
      intros r [line [H1 H2]]; exists line; split; [right; exact H1|exact H2]. }
    destruct (scan_line_cases st l) as [S|[r [S Hr]]]; rewrite S.
    + destruct (IH st) as (extra & E & L & F).
      exists extra; split; [exact E|split; [simpl; lia|exact (W _ F)]].
    + destruct (IH (fst st ++ [r], (snd st + 1)%Z)) as (extra & E & L & F).
      exists (r :: extra); cbn [fst] in E; rewrite <- app_assoc in E.
      split; [exact E|split; [simpl; lia|]].
      constructor; [|exact (W _ F)].
      exists l; split; [left; reflexivity|exact Hr].
Qed.

(** Lines without a numeric token leave the state alone. *)
Lemma scan_lines_quiet (lines : list str) (st : emit_state) :
  Forall (fun line => first_numeric db 0 (split_ws line) = None) lines ->
  scan_lines db fl ref lines st = st.
Proof.
  unfold scan_lines; revert st; induction lines as [|l lines IH];
    intros st H; [reflexivity|].
  inversion H as [|? ? Hl Hlines]; subst; cbn [fold_left].
  replace (scan_line db fl ref st l) with st; [apply IH, Hlines|].
  destruct st as [data pc]; unfold scan_line; rewrite Hl.
  destruct (existsb _ skip_patterns); [reflexivity|].
  destruct (existsb _ keywords); reflexivity.
Qed.

End ScanFacts.

(** The rows of a non-blank text: the template, then the scanned rows. *)
Lemma format_split (db : unicode_db) (text : str) (pdf_name : option str) :
  blank text = false ->
  exists extra,
    format_text_to_structure db text pdf_name
    = template_rows (find_functional_location db (text_lines text))
        (document_reference db pdf_name (text_lines text)) ++ extra
    /\ (length extra <= length (text_lines text))%nat
    /\ Forall (fun r => exists line, In line (text_lines text)
                                     /\ scanned_shape db line r) extra.
Proof.
  intros B; unfold format_text_to_structure; rewrite B.
  rewrite emit_equipment_attributes.
  apply (scan_lines_extra db _ _ (text_lines text) (_, 16%Z)).
Qed.

Lemma scanned_shape_text (db : unicode_db) (text line : str) (r : row) :
  infix line text -> scanned_shape db line r -> scanned_shape db text r.
Proof.
  intros I (H1 & H2 & H3 & H4 & H5 & H6); repeat split; try assumption.
  - eapply infix_trans; [exact H5|exact I].
  - apply H6.
  - apply H6.
  - apply H6.
Qed.

(** X1.  The engine returns no row exactly for a blank text, and never more
    than fifteen rows plus one per non-blank line of the text. *)
Theorem row_count_bounds (db : unicode_db) (text : str)
    (pdf_name : option str) :
  let rows := format_text_to_structure db text pdf_name in
  (length rows <= 15 + length (text_lines text))%nat
  /\ (rows = [] <-> blank text = true).
Proof.
  intros rows; subst rows; destruct (blank text) eqn:B.
  - rewrite format_blank by exact B; split; [simpl; lia|].
    split; reflexivity.
  - destruct (format_split db text pdf_name B) as (extra & E & L & _).
    split.
    + rewrite E, length_app; unfold template_rows.
      rewrite length_map; simpl length at 1; lia.
    + split; [|discriminate].
      intros H; exfalso; exact (rows_nonempty db text pdf_name B H).
Qed.

(** X2.  Every row after the fifteenth comes from the line loop and has its
    shape: the name is SPEC followed by the row's own number, the value is a
    token of the text (not empty, without white space, with a decimal digit),
    the description has at most 50 characters and no white space at either
    end, and the unit is empty or one of the seven known units. *)
Theorem scanned_rows_shape (db : unicode_db) (text : str)
    (pdf_name : option str) :
  Forall (scanned_shape db text)
    (skipn 15 (format_text_to_structure db text pdf_name)).
Proof.
  destruct (blank text) eqn:B.
  - rewrite format_blank by exact B; constructor.
  - destruct (format_split db text pdf_name B) as (extra & E & _ & F).
    rewrite E, skipn_app.
    replace (skipn 15 (template_rows _ _)) with (@nil row) by reflexivity.
    replace (15 - length (template_rows _ _))%nat with O by reflexivity.
    simpl; eapply Forall_impl; [|exact F].
    intros r [line [Hl Hr]].
    eapply scanned_shape_text; [apply text_lines_infix, Hl|exact Hr].
Qed.

(* ================================================================= *)
(** ** What the patterns need *)

Lemma seq_then (a b : regex) (s : str) (k : str -> option str) (out : str) :
  rmatch (Seq a b) s k = Some out ->
  exists pre rest, s = pre ++ rest /\ rmatch b rest k = Some out.
Proof. simpl; intros H; exact (rmatch_suffix a _ _ H). Qed.

Lemma plus_head (p : char -> bool) (s : str) (k : str -> option str)
    (out : str) :
  rmatch (plus p) s k = Some out -> exists c, In c s /\ p c = true.
Proof.
  simpl; intros H; destruct (many_head _ _ _ _ H) as [c [s' [-> E]]].
  exists c; split; [left; reflexivity|exact E].
Qed.

Lemma times_chr_head (p : char -> bool) (n : nat) (s : str)
    (k : str -> option str) (out : str) :
  rmatch (Times (S n) (Chr p)) s k = Some out ->
  exists c, In c s /\ p c = true.
Proof.
  simpl; destruct s as [|c s]; [discriminate|].
  destruct (p c) eqn:E; [|discriminate].
  intros _; exists c; split; [left; reflexivity|exact E].
Qed.

Lemma class_in_app (p : char -> bool) (pre rest : str) :
  (exists c, In c rest /\ p c = true) ->
  exists c, In c (pre ++ rest) /\ p c = true.
Proof.
  intros [c [H E]]; exists c; split; [apply in_or_app; right; exact H|exact E].
Qed.

Lemma search_needs (p : char -> bool) (r : regex) :
  (forall s out, rmatch r s Some = Some out ->
                 exists c, In c s /\ p c = true) ->
  forall s m, search r s = Some m -> exists c, In c s /\ p c = true.
Proof.
  intros N s m H.
  destruct (search_anchor _ _ H) as [pre [tail [-> M]]].
  apply class_in_app; unfold match_here in M.
  destruct (rmatch r tail Some) as [out|] eqn:R; [|discriminate].
  exact (N _ _ R).
Qed.

Section PatternFacts.
Variable db : unicode_db.

(** Every pattern of the engine needs a decimal digit in its subject. *)
Lemma doc_ref_needs_digit (s m : str) :
  search (doc_ref_pattern db) s = Some m ->
  exists c, In c s /\ is_decimal db c = true.
Proof.
  apply search_needs; clear s m; intros s out H.
  unfold doc_ref_pattern in H.
  apply seq_then in H; destruct H as [p1 [r1 [-> H]]]; apply class_in_app.
  apply seq_then in H; destruct H as [p2 [r2 [-> H]]]; apply class_in_app.
  exact (plus_head _ _ _ H).
Qed.

Lemma location_needs_digit (r : regex) (s m : str) :
  In r (location_patterns db) ->
  search r s = Some m ->
  exists c, In c s /\ is_decimal db c = true.
Proof.
  intros Hr; revert s m; apply search_needs; intros s out H.
  destruct Hr as [<-|[<-|[<-|[]]]].
  - unfold rmatch in H; fold rmatch in H.
    exact (times_chr_head (digit db) 1 s _ H).
  - apply seq_then in H; destruct H as [p1 [r1 [-> H]]]; apply class_in_app.
    apply seq_then in H; destruct H as [p2 [r2 [-> H]]]; apply class_in_app.
    exact (plus_head _ _ _ H).
  - unfold rmatch in H; fold rmatch in H.
    exact (plus_head (digit db) s _ H).
Qed.

Lemma line_location_in (patterns : list regex) (line m : str) :
  line_location patterns line = Some m ->
  (8 < len m)%Z /\ exists r, In r patterns /\ search r line = Some m.
Proof.
  induction patterns as [|r patterns IH]; simpl; [discriminate|].
  assert (Next : line_location patterns line = Some m ->
                 (8 < len m)%Z
                 /\ exists r0, (r = r0 \/ In r0 patterns)
                               /\ search r0 line = Some m).
  { intros H; destruct (IH H) as [L [r0 [H1 H2]]].
    split; [exact L|exists r0; split; [right; exact H1|exact H2]]. }
  destruct (search r line) as [x|] eqn:S; [|exact Next].
  destruct (Z.ltb_spec 8 (len x)) as [L|L]; [|exact Next].
  intros H; inversion H; subst x.
  split; [exact L|exists r; split; [left; reflexivity|exact S]].
Qed.

Lemma line_location_none (line : str) :
  (forall c, In c line -> is_decimal db c = false) ->
  line_location (location_patterns db) line = None.
Proof.
  intros N.
  destruct (line_location (location_patterns db) line) as [m|] eqn:L;
    [|reflexivity].
  destruct (line_location_in _ _ L) as [_ [r [Hr S]]].
  destruct (location_needs_digit line Hr S) as [c [Hc D]].
  rewrite (N c Hc) in D; discriminate.
Qed.

(** The location loop returns its default or the match of some line. *)
Lemma scan_locations_cases (lines : list str) (default : str) :
  scan_locations db lines default = default
  \/ exists line, In line lines
                  /\ line_location (location_patterns db) line
                     = Some (scan_locations db lines default).
Proof.
  revert default; induction lines as [|line lines IH]; intros default;
    [left; reflexivity|].
  cbn [scan_locations].
  destruct (line_location (location_patterns db) line) as [m|] eqn:L.
  - destruct (IH m) as [E|[l [Hl E]]].
    + right; exists line; split; [left; reflexivity|].
      rewrite E; exact L.
    + right; exists l; split; [right; exact Hl|exact E].
  - destruct (IH default) as [E|[l [Hl E]]].
    + left; exact E.
    + right; exists l; split; [right; exact Hl|exact E].
Qed.

Lemma scan_locations_none (lines : list str) (default : str) :
  Forall (fun line => line_location (location_patterns db) line = None)
    lines ->
  scan_locations db lines default = default.
Proof.
  revert default; induction lines as [|line lines IH]; intros default H;
    [reflexivity|].
  inversion H as [|? ? Hl Hlines]; subst.
  cbn [scan_locations]; rewrite Hl; apply IH, Hlines.
Qed.

End PatternFacts.

Lemma text_lines_chars (text line : str) (c : char) :
  In line (text_lines text) -> In c line -> In c text.
Proof.
  intros Hl Hc; eapply infix_In; [apply text_lines_infix, Hl|exact Hc].
Qed.

(** X3.  A text that is not blank and holds no decimal digit gives exactly the
    fifteen template rows, under the placeholder location and the reference
    that the file name alone gives: no pattern and no line can contribute. *)
Theorem digit_free_text (db : unicode_db) (text : str)
    (pdf_name : option str) :
  blank text = false ->
  (forall c, In c text -> is_decimal db c = false) ->
  format_text_to_structure db text pdf_name
  = template_rows placeholder_location (document_reference db pdf_name []).
Proof.
  intros B N.
  assert (NL : forall line, In line (text_lines text) ->
                            forall c, In c line -> is_decimal db c = false).
  { intros line Hl c Hc; apply N; eapply text_lines_chars; eassumption. }
  unfold format_text_to_structure; rewrite B.
  assert (FL : find_functional_location db (text_lines text)
               = placeholder_location).
  { apply scan_locations_none, Forall_forall; intros line Hl.
    apply line_location_none, NL, Hl. }
  assert (DR : document_reference db pdf_name (text_lines text)
               = document_reference db pdf_name []).
  { unfold document_reference; rewrite firstn_nil; cbn [doc_ref_in_lines].
    apply doc_ref_in_lines_none; intros line Hl.
    destruct (search (doc_ref_pattern db) line) as [m|] eqn:S; [|reflexivity].
    destruct (doc_ref_needs_digit db _ S) as [c [Hc D]].
    rewrite (NL line (firstn_sub _ _ _ Hl) c Hc) in D; discriminate. }
  rewrite FL, DR, emit_equipment_attributes.
  rewrite scan_lines_quiet; [reflexivity|].
  apply Forall_forall; intros line Hl.
  apply first_numeric_none, Forall_forall; intros part Hp c Hc.
  pose proof (split_ws_tokens line) as T; rewrite Forall_forall in T.
  destruct (T part Hp) as (_ & _ & I).
  apply (NL line Hl); eapply infix_In; [exact I|exact Hc].
Qed.

Lemma digit_free_text_witness :
  length (format_text_to_structure ascii_db (u "Gas detector, no readings")
            (Some (u "report")))
  = 15%nat.
Proof.
  rewrite (@digit_free_text ascii_db (u "Gas detector, no readings")
             (Some (u "report"))).
  - reflexivity.
  - reflexivity.
  - intros c H; vm_compute in H.
    repeat (destruct H as [<-|H]; [reflexivity|]); destruct H.
Defined.

(** X4.  The functional location of every row is the placeholder
    11-18-XTGD-5403 or a piece of the text longer than 8 characters. *)
Theorem functional_location_provenance (db : unicode_db) (text : str)
    (pdf_name : option str) :
  Forall (fun r => col_Field r = placeholder_location
                   \/ (infix (col_Field r) text /\ (8 < len (col_Field r))%Z))
    (format_text_to_structure db text pdf_name).
Proof.
  eapply Forall_impl; [|apply rows_share_location_and_reference].
  intros r [Hr _]; cbv beta in Hr; rewrite Hr.
  unfold find_functional_location.
  destruct (scan_locations_cases db (text_lines text) (u "11-18-XTGD-5403"))
    as [E|[line [Hl E]]]; [left; exact E|right].
  destruct (line_location_in _ _ E) as [L [r0 [_ S]]].
  split; [|exact L].
  eapply infix_trans; [exact (search_infix _ _ S)|apply text_lines_infix, Hl].
Qed.

(* ================================================================= *)
(** ** The document reference *)

Lemma startswith_prefix (p x : str) : startswith (p ++ x) p = true.
Proof.
  induction p as [|c p IH]; simpl; [destruct x; reflexivity|].
  rewrite N.eqb_refl, IH; reflexivity.
Qed.

Lemma startswith_app (s p x : str) :
  startswith s p = true -> startswith (s ++ x) p = true.
Proof.
  revert s; induction p as [|c p IH]; intros s.
  { intros _; destruct (s ++ x); reflexivity. }
  destruct s as [|d s]; simpl; [discriminate|].
  intros H; apply andb_true_iff in H; destruct H as [H1 H2].
  rewrite H1, (IH _ H2); reflexivity.
Qed.

Lemma endswith_suffix (x p : str) : endswith (x ++ p) p = true.
Proof. unfold endswith; rewrite rev_app_distr; apply startswith_prefix. Qed.

Section ReferenceFacts.
Variable db : unicode_db.

Lemma normalized_P (m : str) :
  startswith (if startswith m (u "P") then m else u "P" ++ m) (u "P") = true.
Proof.
  destruct (startswith m (u "P")) eqn:E; [exact E|apply startswith_prefix].
Qed.

Lemma doc_ref_of_name_shape (pdf_name : str) :
  startswith (doc_ref_of_name db pdf_name) (u "P") = true
  /\ endswith (doc_ref_of_name db pdf_name) (u "-1") = true.
Proof.
  unfold doc_ref_of_name.
  destruct (search (doc_ref_pattern db) pdf_name) as [m|].
  - pose proof (normalized_P m) as P.
    destruct (endswith _ (u "-1")) eqn:E.
    + split; [exact P|exact E].
    + split; [apply startswith_app, P|apply endswith_suffix].
  - split; [apply (startswith_prefix (u "P"))|].
    rewrite app_assoc; apply endswith_suffix.
Qed.

Lemma doc_ref_in_lines_P (lines : list str) (default : str) :
  startswith default (u "P") = true ->
  startswith (doc_ref_in_lines db lines default) (u "P") = true.
Proof.
  intros D; induction lines as [|line lines IH]; simpl; [exact D|].
  destruct (search (doc_ref_pattern db) line) as [m|]; [|exact IH].
  apply normalized_P.
Qed.

Lemma document_reference_P (pdf_name : option str) (lines : list str) :
  startswith (document_reference db pdf_name lines) (u "P") = true.
Proof.
  unfold document_reference; apply doc_ref_in_lines_P.
  destruct pdf_name as [[|c n]|]; try reflexivity.
  apply doc_ref_of_name_shape.
Qed.

(** The first line with a match decides, whatever the name gave. *)
Lemma doc_ref_in_lines_first (before after : list str) (line m default : str) :
  (forall l, In l before -> search (doc_ref_pattern db) l = None) ->
  search (doc_ref_pattern db) line = Some m ->
  doc_ref_in_lines db (before ++ line :: after) default
  = if startswith m (u "P") then m else u "P" ++ m.
Proof.
  intros N S; induction before as [|b before IH]; simpl.
  - rewrite S; reflexivity.
  - rewrite (N b) by (left; reflexivity).
    apply IH; intros l Hl; apply N; right; exact Hl.
Qed.

End ReferenceFacts.

(** X5.  The reference of every row starts with P, for the engine's rows and
    for the sample table's; the sample table's reference also ends in -1,
    whatever the file name. *)
Theorem reference_shape (db : unicode_db) (text : str)
    (pdf_name : option str) (name : str) :
  Forall (fun r => startswith (col_REF r) (u "P") = true)
    (format_text_to_structure db text pdf_name)
  /\ Forall (fun r => startswith (col_REF r) (u "P") = true
                      /\ endswith (col_REF r) (u "-1") = true)
       (_generate_sample_attributes db name).
Proof.
  split.
  - eapply Forall_impl; [|apply rows_share_location_and_reference].
    intros r [_ Hr]; cbv beta in Hr; rewrite Hr.
    apply document_reference_P.
  - rewrite sample_rows; apply Forall_forall; intros r Hr.
    apply in_map_iff in Hr.
    destruct Hr as [[pc [[[n v] d] m]] [<- _]].
    unfold mk_row; cbn [col_REF]; apply doc_ref_of_name_shape.
Qed.

(** X6.  The first of the first twenty lines that holds a reference decides:
    every row carries that match, with P put in front when it lacks one and
    without any -1 suffix, whatever the file name; the match is a piece of
    the text. *)
Theorem text_reference_overrides_name (db : unicode_db) (text : str)
    (pdf_name : option str) (before after : list str) (line m : str) :
  blank text = false ->
  text_lines text = before ++ line :: after ->
  (length before < 20)%nat ->
  (forall l, In l before -> search (doc_ref_pattern db) l = None) ->
  search (doc_ref_pattern db) line = Some m ->
  let rows := format_text_to_structure db text pdf_name in
  rows <> []
  /\ Forall (fun r => col_REF r
                      = if startswith m (u "P") then m else u "P" ++ m) rows
  /\ infix m text.
Proof.
  intros B L Len N Hm rows.
  split; [apply rows_nonempty, B|split].
  - eapply Forall_impl; [|apply rows_share_location_and_reference].
    intros r [_ Hr]; cbv beta in Hr; rewrite Hr.
    unfold document_reference; rewrite L.
    rewrite firstn_app.
    rewrite (firstn_all2 before) by lia.
    replace (20 - length before)%nat with (S (19 - length before))%nat by lia.
    cbn [firstn].
    apply doc_ref_in_lines_first; assumption.
  - eapply infix_trans; [exact (search_infix _ _ Hm)|].
    apply text_lines_infix; rewrite L.
    apply in_or_app; right; left; reflexivity.
Qed.

Lemma text_reference_overrides_name_witness :
  Forall (fun r => col_REF r = u "P12.3-4-5")
    (format_text_to_structure ascii_db
       (u "Data sheet" ++ [10] ++ u "Doc 12.3-4-5 rev 2") (Some sample_name)).
Proof.
  apply (@text_reference_overrides_name ascii_db
           (u "Data sheet" ++ [10] ++ u "Doc 12.3-4-5 rev 2")
           (Some sample_name) [u "Data sheet"] [] (u "Doc 12.3-4-5 rev 2")
           (u "12.3-4-5")).
  - reflexivity.
  - reflexivity.
  - simpl; lia.
  - intros l [<-|[]]; vm_compute; reflexivity.
  - vm_compute; reflexivity.
Defined.

(* ================================================================= *)
(** ** The two extraction methods *)

Lemma lstrip_nil_iff (s : str) : lstrip s = [] <-> forallb isspace s = true.
Proof.
  induction s as [|c s IH]; simpl; [split; reflexivity|].
  destruct (isspace c); simpl; [exact IH|split; discriminate].
Qed.

Lemma forallb_rev (A : Type) (p : A -> bool) (l : list A) :
  forallb p (rev l) = forallb p l.
Proof.
  induction l as [|a l IH]; simpl; [reflexivity|].
  rewrite forallb_app, IH; simpl; rewrite andb_true_r; apply andb_comm.
Qed.

(** A string is blank exactly when all of it is white space. *)
Lemma blank_spaces (s : str) : blank s = forallb isspace s.
Proof.
  unfold blank, strip, rstrip.
  destruct (lstrip_split s) as [p [E F]].
  assert (A : forallb isspace s = forallb isspace (rev (lstrip s))).
  { rewrite E at 1; rewrite forallb_app, F, forallb_rev; reflexivity. }
  rewrite A; set (x := rev (lstrip s)).
  destruct (lstrip x) as [|c t] eqn:L.
  - symmetry; apply lstrip_nil_iff, L.
  - destruct (forallb isspace x) eqn:G.
    + apply lstrip_nil_iff in G; congruence.
    + destruct (rev (c :: t)) eqn:R; [|reflexivity].
      apply (f_equal (@length char)) in R; rewrite length_rev in R.
      discriminate.
Qed.

Lemma blank_app (a b : str) : blank (a ++ b) = blank a && blank b.
Proof. rewrite !blank_spaces; apply forallb_app. Qed.

Lemma fold_add_page (pages : list Extractors.page) (text : str) :
  fold_left Extractors.add_page pages text
  = text ++ flat_map (fun t => t ++ [10]) (page_texts pages).
Proof.
  revert text; induction pages as [|p pages IH]; intros text; simpl.
  - rewrite app_nil_r; reflexivity.
  - rewrite IH; unfold page_texts at 2; cbn [flat_map]; fold (page_texts pages).
    destruct p as [t|]; simpl; [|reflexivity].
    destruct (blank t); simpl; [reflexivity|].
    rewrite <- !app_assoc; reflexivity.
Qed.

Lemma page_texts_nonblank (pages : list Extractors.page) :
  Forall (fun t => blank t = false) (page_texts pages).
Proof.
  induction pages as [|p pages IH]; [constructor|].
  unfold page_texts; cbn [flat_map]; fold (page_texts pages).
  destruct p as [t|]; [|exact IH].
  destruct (blank t) eqn:B; [exact IH|constructor; [exact B|exact IH]].
Qed.

Lemma joined_blank (texts : list str) :
  Forall (fun t => blank t = false) texts ->
  blank (flat_map (fun t => t ++ [10]) texts) = true -> texts = [].
Proof.
  destruct texts as [|t texts]; [reflexivity|].
  intros F; inversion F as [|? ? B _]; subst; simpl.
  rewrite <- app_assoc, blank_app, B; discriminate.
Qed.

Lemma extract_text_empty_iff (pages : list Extractors.page) :
  Extractors.extract_text_from_pdf (Some pages) = []
  <-> page_texts pages = [].
Proof.
  unfold Extractors.extract_text_from_pdf.
  rewrite fold_add_page; cbn [app].
  split.
  - intros H; apply joined_blank; [apply page_texts_nonblank|].
    unfold blank; rewrite H; reflexivity.
  - intros ->; reflexivity.
Qed.

(** X7.  [extract_text_from_pdf] returns the trimmed concatenation, in page
    order, of the texts of the pages that did not raise and are not blank,
    each followed by a newline.  The result is already trimmed, and it is
    empty exactly when no page counts. *)
Theorem extract_text_closed_form (pages : list Extractors.page) :
  let text := Extractors.extract_text_from_pdf (Some pages) in
  text = strip (flat_map (fun t => t ++ [10]) (page_texts pages))
  /\ strip text = text
  /\ (text = [] <-> page_texts pages = []).
Proof.
  intros text; subst text.
  split; [|split; [|apply extract_text_empty_iff]];
    unfold Extractors.extract_text_from_pdf;
    rewrite fold_add_page; cbn [app].
  - reflexivity.
  - apply strip_idempotent.
Qed.

Lemma page_texts_cons (p : Extractors.page) (pages : list Extractors.page) :
  page_texts (p :: pages) = page_texts [p] ++ page_texts pages.
Proof. unfold page_texts; cbn [flat_map]; rewrite app_nil_r; reflexivity. Qed.

Lemma ocr_page_step (image : Extractors.page_image) (text : str) (n : nat) :
  Extractors.ocr_page (text, n) image
  = (Extractors.add_page text (usable_text image),
     (n + length (page_texts [usable_text image]))%nat).
Proof.
  unfold Extractors.ocr_page, usable_text, page_texts; cbn [flat_map].
  destruct (Extractors.primary image) as [t|];
    [|simpl; rewrite Nat.add_0_r; reflexivity].
  destruct (blank t) eqn:B; cbn [negb].
  - destruct (Extractors.alternative image) as [a|];
      [|simpl; rewrite Nat.add_0_r; reflexivity].
    destruct (blank a) eqn:Ba; cbn [negb Extractors.add_page].
    + simpl; rewrite Nat.add_0_r; reflexivity.
    + rewrite Ba; simpl; f_equal; lia.
  - cbn [Extractors.add_page]; rewrite B; simpl; f_equal; lia.
Qed.

Lemma fold_ocr_page (imgs : list Extractors.page_image) (text : str)
    (n : nat) :
  fold_left Extractors.ocr_page imgs (text, n)
  = (fold_left Extractors.add_page (map usable_text imgs) text,
     (n + length (page_texts (map usable_text imgs)))%nat).
Proof.
  revert text n; induction imgs as [|image imgs IH]; intros text n.
  - simpl; rewrite Nat.add_0_r; reflexivity.
  - cbn [fold_left map]; rewrite ocr_page_step, IH.
    rewrite (page_texts_cons (usable_text image) (map usable_text imgs)).
    rewrite length_app, Nat.add_assoc; reflexivity.
Qed.

(** X8.  [ocr_pdf] returns what [extract_text_from_pdf] would return on the
    usable text of each image: the primary answer when it is not blank,
    otherwise the alternative answer when that is not blank, nothing when the
    primary call raised.  It is empty exactly when no image has usable
    text. *)
Theorem ocr_is_extraction_of_usable_text
    (imgs : list Extractors.page_image) :
  let text := Extractors.ocr_pdf (Some imgs) in
  text = Extractors.extract_text_from_pdf (Some (map usable_text imgs))
  /\ (text = [] <-> Forall (fun image => usable_text image = None) imgs).
Proof.
  intros text.
  assert (E : text
              = Extractors.extract_text_from_pdf (Some (map usable_text imgs))).
  { subst text; unfold Extractors.ocr_pdf, Extractors.extract_text_from_pdf.
    rewrite fold_ocr_page, fold_add_page; cbn [app plus].
    destruct (page_texts (map usable_text imgs)); reflexivity. }
  split; [exact E|].
  rewrite E.
  rewrite extract_text_empty_iff.
  clear; induction imgs as [|image imgs IH].
  - split; [constructor|reflexivity].
  - unfold page_texts; cbn [map flat_map].
    fold (page_texts (map usable_text imgs)).
    pose proof (page_texts_nonblank [usable_text image]) as NB.
    unfold page_texts in NB; cbn [flat_map] in NB; rewrite app_nil_r in NB.
    destruct (usable_text image) as [t|] eqn:U.
    + destruct (blank t) eqn:B.
      * exfalso; clear -U B; unfold usable_text in U.
        destruct (Extractors.primary image) as [t0|]; [|discriminate].
        destruct (blank t0) eqn:B0; cbn [negb] in U.
        -- destruct (Extractors.alternative image) as [a|]; [|discriminate].
           destruct (blank a) eqn:Ba; cbn [negb] in U; [discriminate|].
           congruence.
        -- congruence.
      * split; [discriminate|intros H; inversion H; congruence].
    + cbn [app]; rewrite IH; split.
      * intros H; constructor; [exact U|exact H].
      * intros H; inversion H; assumption.
Qed.

(* ================================================================= *)
(** ** More on the orchestrators *)

Section SelectionFacts.
Variable db : unicode_db.
Variable pdf : pdf_path.
Variables text ocr_text : str.
Hypothesis direct : extract_text_from_pdf pdf = Return text.
Hypothesis ocr : ocr_pdf pdf = Return ocr_text.

(** With a direct text that is not blank, automatic selection ends with a
    text that is not blank: the direct text, or an OCR text that replaced
    it. *)
Lemma select_text_nonblank :
  blank text = false ->
  exists t, select_text db pdf false = Return t /\ blank t = false
            /\ (t = text \/ t = ocr_text).
Proof.
  intros B; unfold select_text; rewrite direct; cbn [bind]; rewrite B.
  cbn [negb].
  destruct ((50 <? len (strip text))%Z
            && negb (_is_low_quality_extraction db text)).
  - exists text; repeat split; [exact B|left; reflexivity].
  - rewrite ocr; cbn [bind].
    destruct (blank ocr_text) eqn:Bo; cbn [negb andb].
    + exists text; repeat split; [exact B|left; reflexivity].
    + destruct (ocr_improves text ocr_text).
      * exists ocr_text; repeat split; [exact Bo|right; reflexivity].
      * exists text; repeat split; [exact B|left; reflexivity].
Qed.

Lemma select_text_multi_nonblank :
  blank text = false ->
  exists t m, select_text_multi db pdf false = Return (t, m)
              /\ blank t = false /\ (t = text \/ t = ocr_text).
Proof.
  intros B; unfold select_text_multi; rewrite direct; cbn [bind]; rewrite B.
  cbn [negb andb].
  destruct ((100 <? len (strip text))%Z
            && negb (_is_low_quality_extraction db text)).
  - do 2 eexists; repeat split; [exact B|left; reflexivity].
  - rewrite ocr; cbn [bind].
    destruct (blank ocr_text) eqn:Bo; cbn [negb orb].
    + do 2 eexists; repeat split; [exact B|left; reflexivity].
    + destruct (ocr_improves text ocr_text).
      * do 2 eexists; repeat split; [exact Bo|right; reflexivity].
      * do 2 eexists; repeat split; [exact B|left; reflexivity].
Qed.

End SelectionFacts.

(** What a selected text that is not blank adds to the batch. *)
Lemma contribution_of_text (db : unicode_db) (use_ocr : bool)
    (pdf : pdf_path) (t m : str) :
  os_path_exists pdf = true ->
  select_text_multi db pdf use_ocr = Return (t, m) ->
  blank t = false ->
  contribution db use_ocr pdf
  = (format_text_to_structure db t (Some (path_stem pdf)),
     [entry (path_stem pdf) success m
        (format_text_to_structure db t (Some (path_stem pdf)))
        (len (strip t)) None]).
Proof.
  intros E S B; unfold contribution, batch_round, try_one.
  rewrite E, S; cbn [negb bind]; rewrite B; cbn [negb].
  destruct (format_text_to_structure db t (Some (path_stem pdf))) eqn:F;
    [exfalso; exact (rows_nonempty db t _ B F)|reflexivity].
Qed.

Lemma process_pdf_of_text (db : unicode_db)
    (write_to_excel : list row -> result unit) (pdf : pdf_path)
    (use_ocr : bool) (t : str) :
  os_path_exists pdf = true ->
  select_text db pdf use_ocr = Return t ->
  blank t = false ->
  process_pdf_to_excel db write_to_excel pdf use_ocr
  = (_ <- write_to_excel
            (format_text_to_structure db t (Some (path_stem pdf))) ;;
     Return (Z.of_nat (length (format_text_to_structure db t
                                 (Some (path_stem pdf)))))).
Proof.
  intros E S B; unfold process_pdf_to_excel, structure_or_sample.
  rewrite E, S; cbn [negb bind]; rewrite B.
  destruct (format_text_to_structure db t (Some (path_stem pdf))) eqn:F;
    [exfalso; exact (rows_nonempty db t _ B F)|reflexivity].
Qed.

(** X9.  When the file exists, its direct text is not blank and OCR returns,
    automatic mode never falls back to sample data, whatever the quality of
    the text: [process_pdf_to_excel] writes the rows of the direct text or of
    the OCR text that replaced it, and the batch loop adds those rows with a
    success entry. *)
Theorem nonblank_direct_text_is_structured (db : unicode_db)
    (write_to_excel : list row -> result unit) (pdf : pdf_path)
    (text ocr_text : str) :
  os_path_exists pdf = true ->
  extract_text_from_pdf pdf = Return text ->
  ocr_pdf pdf = Return ocr_text ->
  blank text = false ->
  (exists t,
      (t = text \/ t = ocr_text) /\ blank t = false
      /\ process_pdf_to_excel db write_to_excel pdf false
         = (_ <- write_to_excel
                   (format_text_to_structure db t (Some (path_stem pdf))) ;;
            Return (Z.of_nat (length (format_text_to_structure db t
                                        (Some (path_stem pdf)))))))
  /\ (exists t,
         (t = text \/ t = ocr_text) /\ blank t = false
         /\ fst (contribution db false pdf)
            = format_text_to_structure db t (Some (path_stem pdf))
         /\ map summary_status (snd (contribution db false pdf)) = [success]).
Proof.
  intros E Hd Ho B; split.
  - destruct (select_text_nonblank db pdf Hd Ho B) as [t (S & Bt & O)].
    exists t; split; [exact O|split; [exact Bt|]].
    apply process_pdf_of_text; assumption.
  - destruct (select_text_multi_nonblank db pdf Hd Ho B)
      as [t [m (S & Bt & O)]].
    exists t; split; [exact O|split; [exact Bt|]].
    rewrite (contribution_of_text db false pdf E S Bt); split; reflexivity.
Qed.

Lemma nonblank_direct_text_is_structured_witness :
  process_pdf_to_excel ascii_db always_writes good_pdf false = Return 15%Z
  /\ map summary_status (snd (contribution ascii_db false good_pdf))
     = [success].
Proof.
  destruct (@nonblank_direct_text_is_structured ascii_db always_writes
              good_pdf (u "H2S") (repeat 97 200)
              eq_refl eq_refl eq_refl eq_refl) as [_ [t (_ & _ & _ & S)]].
  split; [vm_compute; reflexivity|exact S].
Defined.

Lemma process_pdf_return_inv (db : unicode_db)
    (write_to_excel : list row -> result unit) (pdf : pdf_path)
    (use_ocr : bool) (n : Z) :
  process_pdf_to_excel db write_to_excel pdf use_ocr = Return n ->
  (15 <= n)%Z
  /\ os_path_exists pdf = true
  /\ exists text,
       select_text db pdf use_ocr = Return text
       /\ blank text = false
       /\ write_to_excel
            (format_text_to_structure db text (Some (path_stem pdf)))
          = Return tt
       /\ n = Z.of_nat (length (format_text_to_structure db text
                                  (Some (path_stem pdf)))).
Proof.
  intros H.
  destruct (os_path_exists pdf) eqn:E;
    [|unfold process_pdf_to_excel in H; rewrite E in H; discriminate].
  destruct (select_text db pdf use_ocr) as [text|e] eqn:S;
    [|unfold process_pdf_to_excel in H; rewrite E, S in H; discriminate].
  destruct (blank text) eqn:B;
    [unfold process_pdf_to_excel in H; rewrite E, S in H; cbn [negb bind] in H;
     rewrite B in H; discriminate|].
  rewrite (process_pdf_of_text db write_to_excel pdf use_ocr E S B) in H.
  destruct (write_to_excel _) as [[]|e] eqn:W; [|discriminate].
  cbn [bind] in H; inversion H as [Hn].
  pose proof (format_at_least_15 db text (Some (path_stem pdf)) B) as L.
  split; [lia|split; [reflexivity|]].
  exists text; repeat split; assumption.
Qed.

(** X10.  Whenever [process_pdf_to_excel] returns, the number it returns is at
    least 15, the file exists, a text that is not blank was selected, and the
    writer accepted exactly the rows of that text, whose number it is. *)
Theorem process_pdf_returns (db : unicode_db)
    (write_to_excel : list row -> result unit) (pdf : pdf_path)
    (use_ocr : bool) (n : Z) :
  process_pdf_to_excel db write_to_excel pdf use_ocr = Return n ->
  (15 <= n)%Z
  /\ os_path_exists pdf = true
  /\ exists text,
       select_text db pdf use_ocr = Return text
       /\ blank text = false
       /\ write_to_excel
            (format_text_to_structure db text (Some (path_stem pdf)))
          = Return tt
       /\ n = Z.of_nat (length (format_text_to_structure db text
                                  (Some (path_stem pdf)))).
Proof. apply process_pdf_return_inv. Qed.

Lemma process_pdf_returns_witness :
  process_pdf_to_excel ascii_db always_writes good_pdf false = Return 15%Z
  /\ exists text, select_text ascii_db good_pdf false = Return text
                  /\ blank text = false.
Proof.
  assert (R : process_pdf_to_excel ascii_db always_writes good_pdf false
              = Return 15%Z) by (vm_compute; reflexivity).
  split; [exact R|].
  destruct (@process_pdf_returns ascii_db always_writes good_pdf false 15%Z R)
    as (_ & _ & text & S & B & _).
  exists text; split; [exact S|exact B].
Defined.

Section SummaryFacts.
Variable db : unicode_db.
Variable use_ocr : bool.

(** What a file that exists adds: rows, and one entry about them. *)
Lemma contribution_exists (pdf : pdf_path) :
  os_path_exists pdf = true ->
  exists data e,
    contribution db use_ocr pdf = (data, [e])
    /\ file e = path_stem pdf
    /\ rows e = Z.of_nat (length data)
    /\ (15 <= length data)%nat
    /\ map col_KLART data = map Z.of_nat (seq 1 (length data))
    /\ (summary_status e = success \/ summary_status e = failed_with_sample
        \/ summary_status e = error_with_sample).
Proof.
  intros E.
  assert (Sample : forall st err,
            let data := _generate_sample_attributes db (path_stem pdf) in
            let e := entry (path_stem pdf) st (u "fallback") data 0 err in
            (st = failed_with_sample \/ st = error_with_sample) ->
            exists data0 e0,
              (data, [e]) = (data0, [e0])
              /\ file e0 = path_stem pdf
              /\ rows e0 = Z.of_nat (length data0)
              /\ (15 <= length data0)%nat
              /\ map col_KLART data0 = map Z.of_nat (seq 1 (length data0))
              /\ (summary_status e0 = success
                  \/ summary_status e0 = failed_with_sample
                  \/ summary_status e0 = error_with_sample)).
  { intros st err data e Hst; exists data, e.
    split; [reflexivity|split; [reflexivity|split; [reflexivity|]]].
    split; [unfold data; rewrite sample_length; lia|].
    split; [unfold data; rewrite sample_rows; reflexivity|].
    destruct Hst as [->| ->]; [right; left|right; right]; reflexivity. }
  destruct (select_text_multi db pdf use_ocr) as [[t m]|err] eqn:S.
  - destruct (blank t) eqn:B.
    + replace (contribution db use_ocr pdf)
        with (_generate_sample_attributes db (path_stem pdf),
              [entry (path_stem pdf) failed_with_sample (u "fallback")
                 (_generate_sample_attributes db (path_stem pdf)) 0 None]).
      * apply Sample; left; reflexivity.
      * unfold contribution, batch_round, try_one.
        rewrite E, S; cbn [negb bind]; rewrite B; cbn [negb].
        rewrite sample_nonempty; reflexivity.
    + rewrite (contribution_of_text db use_ocr pdf E S B).
      do 2 eexists; split; [reflexivity|].
      split; [reflexivity|split; [reflexivity|]].
      split; [apply format_at_least_15, B|].
      split; [|left; reflexivity].
      destruct (format_numbered db t (Some (path_stem pdf)) B)
        as [pc (_ & H & _)]; exact H.
  - rewrite (@contribution_raise db use_ocr pdf err E).
    + apply Sample; right; reflexivity.
    + unfold try_one; rewrite S; reflexivity.
Qed.

End SummaryFacts.


(** X11.  The summary has one entry for each path that exists, in the order
    of the paths, named by the file stem; a path that does not exist leaves no
    entry.  The status of an entry is success, failed_with_sample or
    error_with_sample: sample_data and complete_failure are never written. *)
Theorem summary_matches_documents (db : unicode_db) (use_ocr : bool)
    (pdfs : list pdf_path) :
  let summ := snd (batch_loop db pdfs use_ocr) in
  map file summ
  = map path_stem (filter (fun pdf => os_path_exists pdf) pdfs)
  /\ Forall (fun e => written_status (summary_status e)) summ.
Proof.
  cbv zeta; induction pdfs as [|pdf pdfs [IH1 IH2]].
  - split; [reflexivity|constructor].
  - rewrite batch_loop_cons; cbn [snd filter].
    destruct (os_path_exists pdf) eqn:E.
    + destruct (contribution_exists db use_ocr pdf E)
        as (data & e & -> & F & _ & _ & _ & S).
      cbn [snd app map]; split; [rewrite F, IH1; reflexivity|].
      constructor; [exact S|exact IH2].
    + rewrite (contribution_missing db use_ocr pdf E); cbn [snd app].
      split; [exact IH1|exact IH2].
Qed.

(** X12.  The accumulated rows are accounted for by the summary: their number
    is the sum of the entries' row counts, every entry counts at least 15,
    and the position numbers restart at 1 with each entry's document. *)
Theorem summary_accounts_for_rows (db : unicode_db) (use_ocr : bool)
    (pdfs : list pdf_path) :
  let all := fst (batch_loop db pdfs use_ocr) in
  let summ := snd (batch_loop db pdfs use_ocr) in
  Z.of_nat (length all) = sum_Z (map rows summ)
  /\ Forall (fun e => (15 <= rows e)%Z) summ
  /\ map col_KLART all
     = flat_map (fun e => map Z.of_nat (seq 1 (Z.to_nat (rows e)))) summ.
Proof.
  cbv zeta; induction pdfs as [|pdf pdfs (IH1 & IH2 & IH3)].
  - split; [reflexivity|split; [constructor|reflexivity]].
  - rewrite batch_loop_cons; cbn [fst snd].
    destruct (os_path_exists pdf) eqn:E.
    + destruct (contribution_exists db use_ocr pdf E)
        as (data & e & -> & _ & R & L & P & _).
      cbn [fst snd app map flat_map sum_Z].
      rewrite length_app, map_app, Nat2Z.inj_add, IH1, IH3, R, Nat2Z.id, P.
      split; [reflexivity|split; [|reflexivity]].
      constructor; [lia|exact IH2].
    + rewrite (contribution_missing db use_ocr pdf E); cbn [fst snd app].
      split; [exact IH1|split; [exact IH2|exact IH3]].
Qed.

(** X13.  In the batch loop, a direct text that is not blank but fails the
    gate, with an OCR that finds nothing, is structured all the same: the
    entry has status success, method failed and the trimmed length of the
    direct text. *)
Theorem low_quality_text_without_ocr (db : unicode_db) (pdf : pdf_path)
    (text ocr_text : str) :
  os_path_exists pdf = true ->
  extract_text_from_pdf pdf = Return text ->
  blank text = false ->
  passes_gate db 100 text = false ->
  ocr_pdf pdf = Return ocr_text ->
  blank ocr_text = true ->
  let data := format_text_to_structure db text (Some (path_stem pdf)) in
  contribution db false pdf
  = (data, [entry (path_stem pdf) success failed data (len (strip text))
              None]).
Proof.
  intros E Hd B G Ho Bo data.
  apply contribution_of_text; [exact E| |exact B].
  unfold select_text_multi; rewrite Hd; cbn [bind].
  unfold passes_gate in G; rewrite G, Ho; cbn [bind]; rewrite Bo.
  reflexivity.
Qed.

Lemma low_quality_text_without_ocr_witness :
  map (fun e => (summary_status e, method e, text_length e))
    (snd (contribution ascii_db false short_pdf_without_ocr))
  = [(success, failed, 40%Z)].
Proof.
  rewrite (@low_quality_text_without_ocr ascii_db short_pdf_without_ocr
             short_text [] eq_refl eq_refl eq_refl eq_refl eq_refl eq_refl).
  reflexivity.
Defined.

Lemma status_of_trimmed_texts (db : unicode_db) (pdf : pdf_path)
    (text ocr_text : str) :
  os_path_exists pdf = true ->
  extract_text_from_pdf pdf = Return text ->
  ocr_pdf pdf = Return ocr_text ->
  strip text = text ->
  strip ocr_text = ocr_text ->
  map summary_status (snd (contribution db false pdf))
  = [match text, ocr_text with
     | [], [] => failed_with_sample
     | _, _ => success
     end].
Proof.
  intros E Hd Ho St So.
  assert (Nb : forall s : str, strip s = s -> s <> [] -> blank s = false).
  { intros s Hs Hn; unfold blank; rewrite Hs.
    destruct s; [contradiction|reflexivity]. }
  destruct text as [|c text'].
  - destruct ocr_text as [|d ocr_text'].
    + rewrite (@contribution_no_text db false pdf [] [] E Hd eq_refl Ho
                 eq_refl).
      reflexivity.
    + assert (Bo : blank (d :: ocr_text') = false)
        by (apply Nb; [exact So|discriminate]).
      assert (S : select_text_multi db pdf false
                  = Return (d :: ocr_text', ocr_fallback)).
      { unfold select_text_multi; rewrite Hd; cbn [bind].
        rewrite Ho; cbn [bind]; rewrite Bo; reflexivity. }
      rewrite (contribution_of_text db false pdf E S Bo); reflexivity.
  - assert (B : blank (c :: text') = false)
      by (apply Nb; [exact St|discriminate]).
    destruct (select_text_multi_nonblank db pdf Hd Ho B)
      as [t [m (S & Bt & _)]].
    rewrite (contribution_of_text db false pdf E S Bt).
    destruct ocr_text; reflexivity.
Qed.

(** X14.  For a file read through the two extraction methods, automatic mode
    of the batch loop writes failed_with_sample exactly when both methods
    return the empty string, and success otherwise: error_with_sample needs
    an exception the two methods never let out. *)
Theorem disk_file_status (db : unicode_db) (name : str)
    (reader : option (list Extractors.page))
    (images : option (list Extractors.page_image)) :
  map summary_status
    (snd (contribution db false (pdf_on_disk name reader images)))
  = [match Extractors.extract_text_from_pdf reader,
           Extractors.ocr_pdf images with
     | [], [] => failed_with_sample
     | _, _ => success
     end].
Proof.
  apply status_of_trimmed_texts; try reflexivity.
  - apply extract_text_stripped.
  - apply ocr_stripped.
Qed.

(* ================================================================= *)
(** ** [_is_pdf_scanned] *)

Section ScannedFacts.
Variable db : unicode_db.
Variable nonascii_numeric : char -> bool.

Lemma sample_page_text (st : sample_state) (p : Extractors.page) :
  fst (fst (sample_page db nonascii_numeric st p))
  = fst (fst st) ++ sampled_text [p].
Proof.
  destruct st as [[t r] n], p as [x|]; simpl.
  - destruct (fold_left _ x (r, n)); simpl; rewrite app_nil_r; reflexivity.
  - rewrite app_nil_r; reflexivity.
Qed.

Lemma sample_fold_text (pages : list Extractors.page) (st : sample_state) :
  fst (fst (fold_left (sample_page db nonascii_numeric) pages st))
  = fst (fst st) ++ sampled_text pages.
Proof.
  revert st; induction pages as [|p pages IH]; intros st; simpl.
  - rewrite app_nil_r; reflexivity.
  - rewrite IH, sample_page_text; simpl; rewrite app_nil_r, <- app_assoc.
    reflexivity.
Qed.

Lemma sampled_text_blank (pages : list Extractors.page) :
  page_texts pages = [] -> blank (sampled_text pages) = true.
Proof.
  induction pages as [|p pages IH]; [reflexivity|].
  rewrite page_texts_cons; intros H; apply app_eq_nil in H.
  destruct H as [H1 H2]; simpl; rewrite blank_app, (IH H2), andb_true_r.
  destruct p as [x|]; [|reflexivity].
  unfold page_texts in H1; simpl in H1.
  destruct (blank x); [reflexivity|discriminate].
Qed.

Lemma page_texts_firstn (n : nat) (pages : list Extractors.page) :
  page_texts pages = [] -> page_texts (firstn n pages) = [].
Proof.
  revert n; induction pages as [|p pages IH]; intros n H.
  - rewrite firstn_nil; reflexivity.
  - destruct n; [reflexivity|].
    rewrite page_texts_cons in H; apply app_eq_nil in H; destruct H as [H1 H2].
    rewrite firstn_cons, page_texts_cons, H1, (IH n H2); reflexivity.
Qed.

End ScannedFacts.

(** X15.  A document from which [extract_text_from_pdf] gets nothing is one
    that [_is_pdf_scanned] calls scanned. *)
Theorem blank_extraction_is_scanned (db : unicode_db)
    (nonascii_numeric : char -> bool)
    (reader : option (list Extractors.page)) :
  Extractors.extract_text_from_pdf reader = [] ->
  _is_pdf_scanned db nonascii_numeric reader = true.
Proof.
  destruct reader as [pages|]; [|reflexivity].
  intros H.
  assert (P : page_texts pages = []).
  { unfold Extractors.extract_text_from_pdf in H.
    rewrite fold_add_page in H; cbn [app] in H.
    apply joined_blank; [apply page_texts_nonblank|].
    unfold blank; rewrite H; reflexivity. }
  destruct pages as [|p pages]; [reflexivity|].
  unfold _is_pdf_scanned.
  pose proof (sample_fold_text db nonascii_numeric (firstn 3 (p :: pages))
                ([], 0%Z, 0%Z)) as T.
  destruct (fold_left _ (firstn 3 (p :: pages)) _) as [[total r] n].
  cbn [fst app] in T; rewrite T.
  rewrite (blank_nil _ (sampled_text_blank _ (page_texts_firstn 3 _ P))).
  reflexivity.
Qed.

Lemma blank_extraction_is_scanned_witness :
  Extractors.extract_text_from_pdf (Some [Some (u "  "); None; Some [10]])
  = []
  /\ _is_pdf_scanned ascii_db (fun _ => false)
       (Some [Some (u "  "); None; Some [10]])
     = true.
Proof.
  split; [reflexivity|].
  apply (@blank_extraction_is_scanned ascii_db (fun _ => false)
           (Some [Some (u "  "); None; Some [10]])).
  reflexivity.
Defined.

(* ================================================================= *)
(** ** [batch_process] and [main] *)

Section CommandLineFacts.
Variable db : unicode_db.
Variable w : world.

Lemma fold_batch_file (output_dir : str) (use_ocr : bool)
    (files : list (str * pdf_path)) (results : list batch_result) :
  fold_left (batch_file db w output_dir use_ocr) files results
  = results ++ map (batch_outcome db w output_dir use_ocr) files.
Proof.
  revert results; induction files as [|[name pdf] files IH]; intros results.
  - simpl; rewrite app_nil_r; reflexivity.
  - cbn [fold_left map]; rewrite IH.
    unfold batch_file, batch_outcome; cbn [fst snd].
    destruct (process_pdf_to_excel db _ pdf use_ocr);
      rewrite <- app_assoc; reflexivity.
Qed.

Lemma batch_process_unfold (input_dir output_dir : str) (use_ocr : bool) :
  path_exists w input_dir = true ->
  mkdir w output_dir = Return tt ->
  batch_process db w input_dir output_dir use_ocr
  = Return match glob w input_dir (u "*.pdf") with
           | [] => None
           | files =>
               Some (map (batch_outcome db w output_dir use_ocr) files)
           end.
Proof.
  intros E M; unfold batch_process; rewrite E, M; cbn [negb bind].
  destruct (glob w input_dir (u "*.pdf")) as [|f files]; [reflexivity|].
  rewrite fold_batch_file; reflexivity.
Qed.

End CommandLineFacts.

(** X16.  With the input directory present and the output directory made,
    [batch_process] does not raise: it returns nothing when no file is found,
    and otherwise one result per file, in the order found and under the file's
    name, a success with at least 15 rows or a failure with the message of
    what [process_pdf_to_excel] raised. *)
Theorem batch_process_results (db : unicode_db) (w : world)
    (input_dir output_dir : str) (use_ocr : bool) :
  path_exists w input_dir = true ->
  mkdir w output_dir = Return tt ->
  let files := glob w input_dir (u "*.pdf") in
  exists results,
    batch_process db w input_dir output_dir use_ocr
    = Return (match files with [] => None | _ => Some results end)
    /\ map result_file results = map fst files
    /\ results = map (batch_outcome db w output_dir use_ocr) files
    /\ Forall (fun r => match r with
                        | batch_success _ n => (15 <= n)%Z
                        | batch_failed _ _ => True
                        end) results.
Proof.
  intros E M files.
  exists (map (batch_outcome db w output_dir use_ocr) files).
  split; [|split; [|split; [reflexivity|]]].
  - rewrite (batch_process_unfold db w input_dir output_dir use_ocr E M).
    fold files; destruct files; reflexivity.
  - rewrite map_map; apply map_ext; intros [name pdf].
    unfold batch_outcome; cbn [fst snd].
    destruct (process_pdf_to_excel db _ pdf use_ocr); reflexivity.
  - apply Forall_forall; intros r Hr; apply in_map_iff in Hr.
    destruct Hr as [[name pdf] [<- _]]; unfold batch_outcome; cbn [fst snd].
    destruct (process_pdf_to_excel db _ pdf use_ocr) as [n|e] eqn:P;
      [|exact I].
    exact (proj1 (process_pdf_return_inv db _ pdf use_ocr P)).
Qed.

Lemma batch_process_results_witness :
  batch_process ascii_db two_file_world (u "in") (u "out") false
  = Return (Some [batch_success (u "good.pdf") 15;
                  batch_failed (u "P11569-11-99-40-1605-1.pdf")
                    (msg_no_text false)]).
Proof.
  destruct (@batch_process_results ascii_db two_file_world (u "in") (u "out")
              false eq_refl eq_refl) as (results & -> & _ & -> & _).
  vm_compute; reflexivity.
Defined.

Section PrintFacts.
Variable w : world.







End PrintFacts.

(** The check mark and the ballot cross of the result lines are U+2713 and
    U+2717; a stdout that encodes ASCII only makes batch mode end with
    status 1 although both files were processed. *)
Example report_line_values :
  map report_line
    [batch_success (u "good.pdf") 15; batch_failed (u "x.pdf") (u "no text")]
  = [u "✓ good.pdf: 15 rows"; u "✗ x.pdf: no text"]
  /\ main ascii_db ascii_stdout_world batch_args = 1%Z.
Proof. split; vm_compute; reflexivity. Qed.





(** X19.  A direct text that passes the batch gate (more than 100 trimmed
    characters, not low quality) is kept by both orchestrators without asking
    OCR: the result is the same whatever OCR would return or raise. *)
Theorem good_text_skips_ocr (db : unicode_db)
    (write_to_excel : list row -> result unit) (pdf : pdf_path)
    (text : str) :
  os_path_exists pdf = true ->
  extract_text_from_pdf pdf = Return text ->
  passes_gate db 100 text = true ->
  let data := format_text_to_structure db text (Some (path_stem pdf)) in
  select_text db pdf false = Return text
  /\ select_text_multi db pdf false = Return (text, text_extraction)
  /\ process_pdf_to_excel db write_to_excel pdf false
     = (_ <- write_to_excel data ;; Return (Z.of_nat (length data)))
  /\ contribution db false pdf
     = (data, [entry (path_stem pdf) success text_extraction data
                 (len (strip text)) None]).
Proof.
  intros E Hd G data.
  unfold passes_gate in G.
  apply andb_true_iff in G; destruct G as [G Q].
  apply andb_true_iff in G; destruct G as [B L].
  apply negb_true_iff in B.
  assert (S1 : select_text db pdf false = Return text).
  { unfold select_text; rewrite Hd; cbn [bind]; rewrite B; cbn [negb].
    assert (L50 : (50 <? len (strip text))%Z = true).
    { apply Z.ltb_lt; apply Z.ltb_lt in L; lia. }
    rewrite L50, Q; reflexivity. }
  assert (S2 : select_text_multi db pdf false = Return (text, text_extraction)).
  { unfold select_text_multi; rewrite Hd; cbn [bind].
    rewrite B, L, Q; reflexivity. }
  split; [exact S1|split; [exact S2|split]].
  - apply process_pdf_of_text; assumption.
  - apply contribution_of_text; assumption.
Qed.

Lemma good_text_skips_ocr_witness :
  process_pdf_to_excel ascii_db always_writes good_text_pdf false
  = Return 15%Z
  /\ map summary_status (snd (contribution ascii_db false good_text_pdf))
     = [success].
Proof.
  destruct (@good_text_skips_ocr ascii_db always_writes good_text_pdf
              long_text eq_refl eq_refl eq_refl) as (_ & _ & P & C).
  rewrite P, C; split; vm_compute; reflexivity.
Defined.


Section VerdictFacts.
Variable db : unicode_db.
Variable nonascii_numeric : char -> bool.

Lemma fold_count_char (x : str) (r n : Z) :
  fold_left (count_char db nonascii_numeric) x (r, n)
  = ((r + count (readable db nonascii_numeric) x)%Z, (n + len x)%Z).
Proof.
  revert r n; induction x as [|c x IH]; intros r n.
  - unfold count, len; simpl; rewrite !Z.add_0_r; reflexivity.
  - cbn [fold_left]; unfold count_char at 2; rewrite IH.
    unfold count, len; cbn [filter length].
    destruct (readable db nonascii_numeric c); cbn [length];
      f_equal; lia.
Qed.

Lemma count_app (p : char -> bool) (a b : str) :
  count p (a ++ b) = (count p a + count p b)%Z.
Proof. unfold count; rewrite filter_app, length_app; lia. Qed.

Lemma len_app (a b : str) : len (a ++ b) = (len a + len b)%Z.
Proof. unfold len; rewrite length_app; lia. Qed.

Lemma sample_fold (pages : list Extractors.page) (t : str) (r n : Z) :
  fold_left (sample_page db nonascii_numeric) pages (t, r, n)
  = (t ++ sampled_text pages,
     (r + count (readable db nonascii_numeric) (sampled_text pages))%Z,
     (n + len (sampled_text pages))%Z).
Proof.
  revert t r n; induction pages as [|p pages IH]; intros t r n.
  - unfold count, len; simpl; rewrite app_nil_r, !Z.add_0_r; reflexivity.
  - cbn [fold_left]; destruct p as [x|]; cbn [sample_page].
    + rewrite fold_count_char, IH.
      change (sampled_text (Some x :: pages)) with (x ++ sampled_text pages).
      rewrite count_app, len_app, <- app_assoc, !Z.add_assoc; reflexivity.
    + rewrite IH; reflexivity.
Qed.

End VerdictFacts.

(** X20.  For a document with pages, [_is_pdf_scanned] depends only on the
    joined text of those of the first three pages that did not raise: it
    answers scanned exactly when that text has fewer than 100 trimmed
    characters, or less than half of its characters are readable, or the
    artifact count exceeds 2% of its length. *)
Theorem scanned_verdict (db : unicode_db) (nonascii_numeric : char -> bool)
    (p : Extractors.page) (pages : list Extractors.page) :
  let total_text := sampled_text (firstn 3 (p :: pages)) in
  _is_pdf_scanned db nonascii_numeric (Some (p :: pages)) = true
  <-> (len (strip total_text) < 100)%Z
      \/ (QZ (count (readable db nonascii_numeric) total_text)
          / QZ (len total_text) < 0.5)%Q
      \/ (QZ (len total_text) * 0.02 < QZ (artifact_count total_text))%Q.
Proof.
  intros total_text; unfold _is_pdf_scanned.
  rewrite sample_fold; cbn [app Z.add]; fold total_text.
  fold (artifact_count total_text).
  destruct (Z.ltb_spec (len (strip total_text)) 100) as [H|H].
  { split; [intros _; left; exact H|reflexivity]. }
  assert (T : (0 <? len total_text)%Z = true).
  { apply Z.ltb_lt; pose proof (len_strip_le total_text); lia. }
  rewrite T; cbn [andb].
  destruct (Qltb (QZ (count (readable db nonascii_numeric) total_text)
                  / QZ (len total_text)) 0.5) eqn:A.
  { split; [intros _; right; left; apply Qltb_lt, A|reflexivity]. }
  destruct (Qltb (QZ (len total_text) * 0.02)
              (QZ (artifact_count total_text))) eqn:P.
  { split; [intros _; right; right; apply Qltb_lt, P|reflexivity]. }
  split; [discriminate|].
  intros [H'|[H'|H']]; [lia| |]; apply Qltb_lt in H'; congruence.
Qed.
